(** * HardHook over MinHook (overlay/HardHook_minhook.cpp)

    A shallow embedding of Mumble's MinHook-based [HardHook] class and the
    properties of its hook life cycle.

    The class is a thin layer over two external collaborators: the MinHook
    library ([MH_Initialize], [MH_CreateHook], [MH_EnableHook],
    [MH_DisableHook]) and the diagnostic sink [fods].  Neither is part of
    the translation unit, so MinHook is an interface (a type class over an
    abstract library state) and [fods] is an observable event.  Every
    method is a computation that threads the process state and emits, in
    program order, the calls it makes to the two collaborators. *)

From Stdlib Require Import ZArith String List Bool Lia.
From stdpp Require Import base decidable option list gmap.
Import ListNotations.

Local Open Scope Z_scope.

(** ** Data *)

(** [MH_STATUS] of <MinHook.h>: the twelve enumerators that the switch of
    [minhook_status_string] names, and [MH_STATUS_unlisted] for any other
    value of the enumeration type (the switch falls through for it). *)
Inductive MH_STATUS : Type :=
| MH_UNKNOWN
| MH_OK
| MH_ERROR_ALREADY_INITIALIZED
| MH_ERROR_NOT_INITIALIZED
| MH_ERROR_ALREADY_CREATED
| MH_ERROR_NOT_CREATED
| MH_ERROR_ENABLED
| MH_ERROR_DISABLED
| MH_ERROR_NOT_EXECUTABLE
| MH_ERROR_UNSUPPORTED_FUNCTION
| MH_ERROR_MEMORY_ALLOC
| MH_ERROR_MEMORY_PROTECT
| MH_STATUS_unlisted.

#[global] Instance MH_STATUS_eq_dec : EqDecision MH_STATUS.
Proof. solve_decision. Defined.

(** Addresses ([LPVOID], [voidFunc], [IUnknown *]) and [LONG] are integers. *)
Abbreviation LPVOID := Z (only parsing).
Abbreviation voidFunc := Z (only parsing).
Abbreviation LONG := Z (only parsing).

Definition NULL : Z := 0.

(** The data members of [class HardHook]. *)
Record HardHook : Type := mkHardHook {
  m_func : voidFunc;
  m_replacement : voidFunc;
  call : voidFunc
}.

#[global] Instance HardHook_eq_dec : EqDecision HardHook.
Proof. solve_decision. Defined.

Definition set_call (this : HardHook) (p : voidFunc) : HardHook :=
  {| m_func := m_func this; m_replacement := m_replacement this; call := p |}.

(** An argument of the variadic [fods]. *)
Inductive fods_arg : Type :=
| ArgPtr (p : LPVOID)
| ArgLong (n : LONG)
| ArgStr (s : string).

(** What the translation unit does to the outside, with what came back. *)
Inductive Event : Type :=
| Ev_MH_Initialize (ret : MH_STATUS)
| Ev_MH_CreateHook (pTarget pDetour : LPVOID) (ret : MH_STATUS)
| Ev_MH_EnableHook (pTarget : LPVOID) (ret : MH_STATUS)
| Ev_MH_DisableHook (pTarget : LPVOID) (ret : MH_STATUS)
| Ev_fods (fmt : string) (args : list fods_arg).

(** The MinHook entry points the file calls.  [MH_CreateHook] receives
    [ppOriginal] as the address of the [call] member: it is given the
    member's current content and returns the content it leaves there. *)
Class MinHook (B : Type) : Type := {
  MH_Initialize : B -> MH_STATUS * B;
  MH_CreateHook : LPVOID -> LPVOID -> LPVOID -> B -> MH_STATUS * LPVOID * B;
  MH_EnableHook : LPVOID -> B -> MH_STATUS * B;
  MH_DisableHook : LPVOID -> B -> MH_STATUS * B
}.

(** The process: the file-scope [minhook_init_once], the library's own
    state and the data memory that [setupInterface] reads, as
    pointer-sized cells by address. *)
Record World (B : Type) : Type := mkWorld {
  minhook_init_once : LONG;
  minhook : B;
  memory : gmap Z Z
}.
Arguments mkWorld {B} _ _ _.
Arguments minhook_init_once {B} _.
Arguments minhook {B} _.
Arguments memory {B} _.

Definition set_minhook_init_once {B} (w : World B) (v : LONG) : World B :=
  {| minhook_init_once := v; minhook := minhook w; memory := memory w |}.

Definition set_minhook {B} (w : World B) (b : B) : World B :=
  {| minhook_init_once := minhook_init_once w; minhook := b; memory := memory w |}.

(** The state of a process at start-up: [static LONG minhook_init_once = 0]. *)
Definition startup {B} (b : B) (m : gmap Z Z) : World B :=
  {| minhook_init_once := 0; minhook := b; memory := m |}.

(** ** Computations

    A state monad over the process that also collects the emitted events. *)
Definition Proc (B A : Type) : Type := World B -> A * World B * list Event.

Definition ret {B A} (a : A) : Proc B A := fun w => (a, w, []).

Definition bind {B A C} (m : Proc B A) (k : A -> Proc B C) : Proc B C :=
  fun w =>
    let '(a, w1, e1) := m w in
    let '(c, w2, e2) := k a w1 in
    (c, w2, e1 ++ e2).

Declare Scope proc_scope.
Delimit Scope proc_scope with proc.
Notation "x <- m ;; k" := (bind m (fun x => k))
  (at level 100, m at next level, right associativity) : proc_scope.
Notation "m ;; k" := (bind m (fun _ => k))
  (at level 100, right associativity) : proc_scope.

Definition result {B A} (r : A * World B * list Event) : A := fst (fst r).
Definition world_of {B A} (r : A * World B * list Event) : World B := snd (fst r).
Definition events {B A} (r : A * World B * list Event) : list Event := snd r.

(** ** The translation unit *)

Definition minhook_status_string (status : MH_STATUS) : string :=
  match status with
  | MH_UNKNOWN => "MH_UNKNOWN"
  | MH_OK => "MH_OK"
  | MH_ERROR_ALREADY_INITIALIZED => "MH_ERROR_ALREADY_INITIALIZED"
  | MH_ERROR_NOT_INITIALIZED => "MH_ERROR_NOT_INITIALIZED"
  | MH_ERROR_ALREADY_CREATED => "MH_ERROR_ALREADY_CREATED"
  | MH_ERROR_NOT_CREATED => "MH_ERROR_NOT_CREATED"
  | MH_ERROR_ENABLED => "MH_ERROR_ENABLED"
  | MH_ERROR_DISABLED => "MH_ERROR_DISABLED"
  | MH_ERROR_NOT_EXECUTABLE => "MH_ERROR_NOT_EXECUTABLE"
  | MH_ERROR_UNSUPPORTED_FUNCTION => "MH_ERROR_UNSUPPORTED_FUNCTION"
  | MH_ERROR_MEMORY_ALLOC => "MH_ERROR_MEMORY_ALLOC"
  | MH_ERROR_MEMORY_PROTECT => "MH_ERROR_MEMORY_PROTECT"
  | MH_STATUS_unlisted => "(unknown)"
  end%string.

Section TranslationUnit.
Context {B : Type} {MH : MinHook B}.

Local Open Scope proc_scope.

(** *** Calls that leave the translation unit *)

Definition fods (fmt : string) (args : list fods_arg) : Proc B unit :=
  fun w => (tt, w, [Ev_fods fmt args]).

Definition call_MH_Initialize : Proc B MH_STATUS :=
  fun w =>
    let '(status, b) := MH_Initialize (minhook w) in
    (status, set_minhook w b, [Ev_MH_Initialize status]).

Definition call_MH_CreateHook (pTarget pDetour ppOriginal : LPVOID)
  : Proc B (MH_STATUS * LPVOID) :=
  fun w =>
    let '(status, original, b) :=
      MH_CreateHook pTarget pDetour ppOriginal (minhook w) in
    (status, original, set_minhook w b, [Ev_MH_CreateHook pTarget pDetour status]).

Definition call_MH_EnableHook (pTarget : LPVOID) : Proc B MH_STATUS :=
  fun w =>
    let '(status, b) := MH_EnableHook pTarget (minhook w) in
    (status, set_minhook w b, [Ev_MH_EnableHook pTarget status]).

Definition call_MH_DisableHook (pTarget : LPVOID) : Proc B MH_STATUS :=
  fun w =>
    let '(status, b) := MH_DisableHook pTarget (minhook w) in
    (status, set_minhook w b, [Ev_MH_DisableHook pTarget status]).

(** [InterlockedCompareExchange(&minhook_init_once, Exchange, Comperand)]:
    one atomic step that returns the initial value of the variable and
    stores [Exchange] when that value is [Comperand]. *)
Definition InterlockedCompareExchange (Exchange Comperand : LONG)
  : Proc B LONG :=
  fun w =>
    let initial := minhook_init_once w in
    (initial,
     if initial =? Comperand then set_minhook_init_once w Exchange else w,
     []).

(** *** Functions of the file *)

Definition EnsureMinHookInitialized : Proc B unit :=
  initial <- InterlockedCompareExchange 1 0 ;;
  if initial =? 0 then call_MH_Initialize ;; ret tt else ret tt.

(** [if (status != MH_OK) fods(fmt, minhook_status_string(status));] *)
Definition report (fmt : string) (status : MH_STATUS) : Proc B unit :=
  if bool_decide (status <> MH_OK)
  then fods fmt [ArgStr (minhook_status_string status)]
  else ret tt.

Definition setup (this : HardHook) (func replacement : voidFunc)
  : Proc B HardHook :=
  created <- call_MH_CreateHook func replacement (call this) ;;
  let '(status, original) := created in
  let this := set_call this original in
  report "HardHook: setup failed, MH_CreateHook returned %s" status ;;
  status <- call_MH_EnableHook (m_func this) ;;
  report "HardHook: setup failed, MH_EnableHook returned %s" status ;;
  ret this.

(** [HardHook::HardHook()] *)
Definition HardHook_ctor : Proc B HardHook :=
  let this := {| m_func := NULL; m_replacement := NULL; call := NULL |} in
  EnsureMinHookInitialized ;;
  ret this.

(** [HardHook::HardHook(voidFunc func, voidFunc replacement)].  The
    member [call] has no initializer: it keeps what the object's storage
    held, [storage], until [setup] hands its address to MinHook. *)
Definition HardHook_ctor_func (storage : voidFunc) (func replacement : voidFunc)
  : Proc B HardHook :=
  EnsureMinHookInitialized ;;
  let this :=
    {| m_func := func; m_replacement := replacement; call := storage |} in
  setup this func replacement.

Definition reset (this : HardHook) : Proc B HardHook :=
  ret {| m_func := NULL; m_replacement := NULL; call := NULL |}.

Definition inject (this : HardHook) (force : bool) : Proc B HardHook :=
  if negb force then ret this
  else
    status <- call_MH_EnableHook (m_func this) ;;
    report "HardHook: inject() failed: MH_EnableHook returned %s" status ;;
    ret this.

Definition restore (this : HardHook) (force : bool) : Proc B HardHook :=
  if negb force then ret this
  else
    status <- call_MH_DisableHook (m_func this) ;;
    report "HardHook: restore() failed: MH_DisableHook returned %s" status ;;
    ret this.

Definition print (this : HardHook) : Proc B HardHook :=
  fods "HardHook: unused 'print' method called for MinHook-based HardHook" [] ;;
  ret this.

Definition check (this : HardHook) : Proc B HardHook :=
  fods "HardHook: unused 'check' method called for MinHook-based HardHook" [] ;;
  ret this.

(** The size of a pointer on the target. *)
Variable sizeof_pvoid : Z.

(** [setupInterface] reads memory through pointers it was handed: the
    first cell of the object, then cell [funcoffset] of the table found
    there.  Reading an address that holds no cell is undefined in C++;
    the computation then has no outcome ([None]). *)
Definition setupInterface (this : HardHook) (unkn : LPVOID)
    (funcoffset : LONG) (replacement : voidFunc)
  : World B -> option (HardHook * World B * list Event) :=
  fun w =>
    let '(_, w1, e1) :=
      fods "HardHook: setupInterface: Replacing %p function #%ld"
           [ArgPtr unkn; ArgLong funcoffset] w in
    ptr ← memory w1 !! unkn;
    func ← memory w1 !! (ptr + funcoffset * sizeof_pvoid);
    let '(this', w2, e2) := setup this func replacement w1 in
    Some (this', w2, e1 ++ e2).

(** *** Histories of one hook object *)

Inductive Ctor : Type :=
| New
| NewFunc (storage : voidFunc) (func replacement : voidFunc).

Inductive Op : Type :=
| OpSetup (func replacement : voidFunc)
| OpSetupInterface (unkn : LPVOID) (funcoffset : LONG) (replacement : voidFunc)
| OpInject (force : bool)
| OpRestore (force : bool)
| OpReset
| OpPrint
| OpCheck.

Definition construct (c : Ctor) : Proc B HardHook :=
  match c with
  | New => HardHook_ctor
  | NewFunc storage func replacement =>
      HardHook_ctor_func storage func replacement
  end.

Definition step (op : Op) (this : HardHook)
  : World B -> option (HardHook * World B * list Event) :=
  match op with
  | OpSetup func replacement => fun w => Some (setup this func replacement w)
  | OpSetupInterface unkn funcoffset replacement =>
      setupInterface this unkn funcoffset replacement
  | OpInject force => fun w => Some (inject this force w)
  | OpRestore force => fun w => Some (restore this force w)
  | OpReset => fun w => Some (reset this w)
  | OpPrint => fun w => Some (print this w)
  | OpCheck => fun w => Some (check this w)
  end.

Fixpoint run (ops : list Op) (this : HardHook) (w : World B)
  : option (HardHook * World B * list Event) :=
  match ops with
  | [] => Some (this, w, [])
  | op :: ops =>
      '(this1, w1, e1) ← step op this w;
      '(this2, w2, e2) ← run ops this1 w1;
      Some (this2, w2, e1 ++ e2)
  end.

(** Hook objects constructed one after the other. *)
Fixpoint construct_all (cs : list Ctor) : Proc B (list HardHook) :=
  match cs with
  | [] => ret []
  | c :: cs =>
      this <- construct c ;;
      rest <- construct_all cs ;;
      ret (this :: rest)
  end.

End TranslationUnit.

(** ** Reading a trace *)

Definition is_MH_Initialize (e : Event) : bool :=
  match e with Ev_MH_Initialize _ => true | _ => false end.

Definition is_fods (e : Event) : bool :=
  match e with Ev_fods _ _ => true | _ => false end.

(** How often the initialization routine of the library was entered. *)
Definition count_MH_Initialize (es : list Event) : nat :=
  length (List.filter is_MH_Initialize es).

(** The diagnostic records of a trace. *)
Definition diagnostics (es : list Event) : list Event := List.filter is_fods es.

(** A call into the library, without what it returned. *)
Inductive LibCall : Type :=
| Initialize
| CreateHook (pTarget pDetour : LPVOID)
| EnableHook (pTarget : LPVOID)
| DisableHook (pTarget : LPVOID).

#[global] Instance LibCall_eq_dec : EqDecision LibCall.
Proof. solve_decision. Defined.

Definition lib_call (e : Event) : option LibCall :=
  match e with
  | Ev_MH_Initialize _ => Some Initialize
  | Ev_MH_CreateHook t d _ => Some (CreateHook t d)
  | Ev_MH_EnableHook t _ => Some (EnableHook t)
  | Ev_MH_DisableHook t _ => Some (DisableHook t)
  | Ev_fods _ _ => None
  end.

(** The calls a trace makes into the library, in order. *)
Definition lib_calls (es : list Event) : list LibCall := omap lib_call es.

(** The events [report fmt status] emits. *)
Definition reported (fmt : string) (status : MH_STATUS) : list Event :=
  if bool_decide (status <> MH_OK)
  then [Ev_fods fmt [ArgStr (minhook_status_string status)]]
  else [].

(** ** A test double for the library

    It answers each call with the next status of a script ([MH_OK] once the
    script is used up).  As MinHook does, [MH_CreateHook] stores a fresh,
    non-null trampoline through [ppOriginal] when it answers [MH_OK] and
    leaves the location alone otherwise. *)
Record Scripted : Type := mkScripted {
  script : list MH_STATUS;
  next_trampoline : positive
}.

Definition next_status (b : Scripted) : MH_STATUS * Scripted :=
  match script b with
  | [] => (MH_OK, b)
  | s :: rest => (s, {| script := rest; next_trampoline := next_trampoline b |})
  end.

Definition scripted_create (original : LPVOID) (b : Scripted)
  : MH_STATUS * LPVOID * Scripted :=
  let '(s, b1) := next_status b in
  if bool_decide (s = MH_OK)
  then (s, Z.pos (next_trampoline b1),
        {| script := script b1; next_trampoline := Pos.succ (next_trampoline b1) |})
  else (s, original, b1).

#[global] Instance Scripted_MinHook : MinHook Scripted := {
  MH_Initialize := next_status;
  MH_CreateHook := fun _ _ original => scripted_create original;
  MH_EnableHook := fun _ => next_status;
  MH_DisableHook := fun _ => next_status
}.

(** ** The life cycle of one hook, with the spec's derived state

    A history is a constructor followed by method calls on the object it
    made.  Next to the object the history carries one derived flag: it is
    raised by a [setup] (direct, through [setupInterface] or inside the
    two-argument constructor) whose events satisfy [ok], stays raised, and
    is lowered by [reset]. *)

Definition create_ok (es : list Event) : bool :=
  existsb (fun e => match e with
                    | Ev_MH_CreateHook _ _ MH_OK => true
                    | _ => false
                    end) es.

Definition enable_ok (es : list Event) : bool :=
  existsb (fun e => match e with
                    | Ev_MH_EnableHook _ MH_OK => true
                    | _ => false
                    end) es.

(** The spec's "full success" of [setup]: neither sub-step reported a
    non-success status. *)
Definition setup_succeeded (es : list Event) : bool := create_ok es && enable_ok es.

Definition flag_step (ok : list Event -> bool) (op : Op) (es : list Event)
    (flag : bool) : bool :=
  match op with
  | OpSetup _ _ | OpSetupInterface _ _ _ => flag || ok es
  | OpReset => false
  | OpInject _ | OpRestore _ | OpPrint | OpCheck => flag
  end.

Definition flag_ctor (ok : list Event -> bool) (c : Ctor) (es : list Event) : bool :=
  match c with
  | New => false
  | NewFunc _ _ _ => ok es
  end.

Section Histories.
Context {B : Type} {MH : MinHook B} (sizeof_pvoid : Z).

Fixpoint tracked (ok : list Event -> bool) (ops : list Op) (this : HardHook)
    (w : World B) (flag : bool) : option (HardHook * World B * bool) :=
  match ops with
  | [] => Some (this, w, flag)
  | op :: ops =>
      '(this1, w1, e1) ← step sizeof_pvoid op this w;
      tracked ok ops this1 w1 (flag_step ok op e1 flag)
  end.

Definition history (ok : list Event -> bool) (c : Ctor) (ops : list Op)
    (w : World B) : option (HardHook * World B * bool) :=
  let '(this, w1, e) := construct c w in
  tracked ok ops this w1 (flag_ctor ok c e).

End Histories.

(** The spec's [installed]: "true once setup has succeeded, false
    initially and after reset", over a history. *)
Definition installed {B} {MH : MinHook B} (sizeof_pvoid : Z) :=
  history (B := B) sizeof_pvoid setup_succeeded.

(** The invariant of the data model as the spec words it: in every state a
    hook can reach, [call] is non-null exactly when [installed] holds. *)
Definition trampoline_iff_installed : Prop :=
  forall (B : Type) (MH : MinHook B) (sizeof_pvoid : Z) (c : Ctor)
         (ops : list Op) (w : World B) this w' flag,
    installed sizeof_pvoid c ops w = Some (this, w', flag) ->
    (call this <> NULL <-> flag = true).

(** What [MH_CreateHook] does with [ppOriginal] in MinHook: a non-null
    trampoline is stored on [MH_OK], nothing is stored otherwise. *)
Definition stores_trampoline_iff_ok {B} (MH : MinHook B) : Prop :=
  forall pTarget pDetour original b,
    let '(status, original', _) := MH_CreateHook pTarget pDetour original b in
    if bool_decide (status = MH_OK) then original' <> NULL else original' = original.

(** The storage a constructor finds: [HardHook()] initializes [call]
    itself; for [HardHook(func, replacement)] it is what the storage held,
    zero for an object of static storage duration. *)
Definition storage_zeroed (c : Ctor) : Prop :=
  match c with
  | New => True
  | NewFunc storage _ _ => storage = NULL
  end.

(** The contract of [setup] as the spec words it: create the redirection
    for [target], then enable [target]. *)
Definition setup_calls_spec (target replacement : voidFunc) : list LibCall :=
  [CreateHook target replacement; EnableHook target].

(** A method call that is [inject(false)] or [restore(false)]. *)
Definition unforced (op : Op) : Prop :=
  op = OpInject false \/ op = OpRestore false.

(** The dispatch table [fs] = [f0; f1; ...; fn] lies at [table]: slot [i]
    is the cell [i] pointers further. *)
Definition dispatch_table (sizeof_pvoid : Z) (m : gmap Z Z) (table : LPVOID)
    (fs : list Z) : Prop :=
  forall (i : nat) (f : Z),
    fs !! i = Some f -> m !! (table + Z.of_nat i * sizeof_pvoid) = Some f.

Definition set_memory {B} (w : World B) (m : gmap Z Z) : World B :=
  {| minhook_init_once := minhook_init_once w; minhook := minhook w; memory := m |}.

(** ** EnsureMinHookInitialized under concurrent first use

    The guard is one interlocked step followed, for the thread that saw 0,
    by the call of [MH_Initialize].  Other threads may run between the two.
    A thread is at one of three points; a schedule names the thread that
    takes the next step. *)
Inductive pc : Type :=
| AtCompareExchange
| AtInitialize
| Returned.

#[global] Instance pc_eq_dec : EqDecision pc.
Proof. solve_decision. Defined.

Definition is_AtInitialize (p : pc) : bool :=
  match p with AtInitialize => true | _ => false end.

Fixpoint count_pc (f : pc -> bool) (threads : list pc) : nat :=
  match threads with
  | [] => 0%nat
  | p :: threads => (Nat.b2n (f p) + count_pc f threads)%nat
  end.

Section Interleaving.
Context {B : Type} {MH : MinHook B}.

Local Open Scope proc_scope.

Definition ensure_step (p : pc) : Proc B pc :=
  match p with
  | AtCompareExchange =>
      initial <- InterlockedCompareExchange 1 0 ;;
      ret (if initial =? 0 then AtInitialize else Returned)
  | AtInitialize => call_MH_Initialize ;; ret Returned
  | Returned => ret Returned
  end.

Fixpoint interleave (schedule : list nat) (threads : list pc)
  : Proc B (list pc) :=
  match schedule with
  | [] => ret threads
  | i :: schedule =>
      match threads !! i with
      | Some p =>
          p' <- ensure_step p ;;
          interleave schedule (<[i:=p']> threads)
      | None => interleave schedule threads
      end
  end.

End Interleaving.

(** What holds between the flag, the threads and the number [n] of times
    [MH_Initialize] has been entered: while the flag is 0 no thread is past
    the interlocked step; once it is 1, the routine has been entered or
    exactly one thread is about to enter it. *)
Definition guard_inv {B} (threads : list pc) (w : World B) (n : nat) : Prop :=
  (minhook_init_once w = 0 /\ Forall (eq AtCompareExchange) threads /\ n = 0%nat) \/
  (minhook_init_once w = 1 /\ (n + count_pc is_AtInitialize threads = 1)%nat).

(** ** Sample inputs

    A 64-bit process: an object at 0x5000 whose first cell points to a
    dispatch table of three functions at 0x6000. *)
Definition sample_memory : gmap Z Z :=
  <[20480 := 24576]> (<[24576 := 4096]> (<[24584 := 4352]> (<[24592 := 4608]> ∅))).

Definition sample_table : list Z := [4096; 4352; 4608].

Definition sample_library (statuses : list MH_STATUS) : Scripted :=
  {| script := statuses; next_trampoline := 28672 |}.

Definition sample_world (statuses : list MH_STATUS) : World Scripted :=
  startup (sample_library statuses) sample_memory.

Definition sample_hook : HardHook :=
  {| m_func := 4096; m_replacement := 8192; call := NULL |}.

(** ** Programs over several hooks

    A program constructs hooks and calls methods on the hooks it has
    constructed, named by their order of construction.  Calling a method
    on a hook that does not exist has no outcome. *)
Inductive Stmt : Type :=
| Construct (c : Ctor)
| Method (i : nat) (op : Op).

Section Programs.
Context {B : Type} {MH : MinHook B} (sizeof_pvoid : Z).

Fixpoint exec (prog : list Stmt) (objs : list HardHook) (w : World B)
  : option (list HardHook * World B * list Event) :=
  match prog with
  | [] => Some (objs, w, [])
  | Construct c :: prog =>
      let '(this, w1, e1) := construct c w in
      '(objs2, w2, e2) ← exec prog (objs ++ [this]) w1;
      Some (objs2, w2, e1 ++ e2)
  | Method i op :: prog =>
      this ← objs !! i;
      '(this1, w1, e1) ← step sizeof_pvoid op this w;
      '(objs2, w2, e2) ← exec prog (<[i:=this1]> objs) w1;
      Some (objs2, w2, e1 ++ e2)
  end.

End Programs.

(** ** More ways to read a trace *)

(** The status a call to [MH_CreateHook], [MH_EnableHook] or
    [MH_DisableHook] returned. *)
Definition call_status (e : Event) : option MH_STATUS :=
  match e with
  | Ev_MH_CreateHook _ _ s | Ev_MH_EnableHook _ s | Ev_MH_DisableHook _ s => Some s
  | Ev_MH_Initialize _ | Ev_fods _ _ => None
  end.

(** The status that still wants its diagnostic after event [prev]. *)
Definition expects (prev : option Event) : option MH_STATUS :=
  match prev with
  | Some e =>
      match call_status e with
      | Some s => if bool_decide (s = MH_OK) then None else Some s
      | None => None
      end
  | None => None
  end.

(** A diagnostic with one string argument: the shape of a failure report. *)
Definition is_report (e : Event) : bool :=
  match e with
  | Ev_fods _ [ArgStr _] => true
  | _ => false
  end.

Definition is_report_of (e : Event) (s : MH_STATUS) : bool :=
  match e with
  | Ev_fods _ [ArgStr str] => String.eqb str (minhook_status_string s)
  | _ => false
  end.

(** Every create, enable or disable call that returned a status other
    than [MH_OK] is followed at once by a report carrying the name of that
    status, and a report occurs nowhere else. *)
Fixpoint well_reported_after (prev : option Event) (es : list Event) : bool :=
  match es with
  | [] => match expects prev with None => true | Some _ => false end
  | e :: rest =>
      match expects prev with
      | Some s => is_report_of e s
      | None => negb (is_report e)
      end && well_reported_after (Some e) rest
  end.

Definition well_reported (es : list Event) : bool := well_reported_after None es.

(** The addresses a trace enables or disables. *)
Definition toggled (cs : list LibCall) : list Z :=
  omap (fun c => match c with
                 | EnableHook t | DisableHook t => Some t
                 | Initialize | CreateHook _ _ => None
                 end) cs.

(** The library calls of a method, from the arguments, the stored target
    and the memory alone. *)
Definition next_target (op : Op) (target : voidFunc) : voidFunc :=
  match op with
  | OpReset => NULL
  | _ => target
  end.

Definition calls_of_step (sizeof_pvoid : Z) (m : gmap Z Z) (op : Op)
    (target : voidFunc) : option (list LibCall) :=
  match op with
  | OpSetup func replacement =>
      Some [CreateHook func replacement; EnableHook target]
  | OpSetupInterface unkn funcoffset replacement =>
      table ← m !! unkn;
      func ← m !! (table + funcoffset * sizeof_pvoid);
      Some [CreateHook func replacement; EnableHook target]
  | OpInject force => Some (if force then [EnableHook target] else [])
  | OpRestore force => Some (if force then [DisableHook target] else [])
  | OpReset | OpPrint | OpCheck => Some []
  end.

Fixpoint calls_of (sizeof_pvoid : Z) (m : gmap Z Z) (ops : list Op)
    (target : voidFunc) : option (list LibCall) :=
  match ops with
  | [] => Some []
  | op :: ops =>
      cs ← calls_of_step sizeof_pvoid m op target;
      rest ← calls_of sizeof_pvoid m ops (next_target op target);
      Some (cs ++ rest)
  end.

(** The methods that are meant to leave the library alone. *)
Definition quiet (op : Op) : bool :=
  match op with
  | OpInject false | OpRestore false | OpReset | OpPrint | OpCheck => true
  | _ => false
  end.

Definition is_listed (s : MH_STATUS) : bool :=
  match s with
  | MH_STATUS_unlisted => false
  | _ => true
  end.

(** * Properties *)

(** ** Equations of the methods *)

Ltac unfold_proc :=
  unfold print, check, inject, restore, reset, setup, report,
    EnsureMinHookInitialized, InterlockedCompareExchange,
    call_MH_Initialize, call_MH_CreateHook, call_MH_EnableHook,
    call_MH_DisableHook, fods, bind, ret, reported in *.

Section Equations.
Context {B : Type} {MH : MinHook B}.

Lemma setup_eq (this : HardHook) (func replacement : voidFunc) (w : World B)
    s1 original b1 s2 b2 :
  MH_CreateHook func replacement (call this) (minhook w) = (s1, original, b1) ->
  MH_EnableHook (m_func this) b1 = (s2, b2) ->
  setup this func replacement w =
    (set_call this original, set_minhook w b2,
     Ev_MH_CreateHook func replacement s1
       :: reported "HardHook: setup failed, MH_CreateHook returned %s" s1
       ++ Ev_MH_EnableHook (m_func this) s2
       :: reported "HardHook: setup failed, MH_EnableHook returned %s" s2).
Proof.
  intros Hc He. unfold_proc. rewrite Hc. simpl.
  destruct (bool_decide (s1 <> MH_OK)); simpl; rewrite He;
    destruct (bool_decide (s2 <> MH_OK)); reflexivity.
Qed.

Lemma inject_eq (this : HardHook) (w : World B) s b :
  MH_EnableHook (m_func this) (minhook w) = (s, b) ->
  inject this true w =
    (this, set_minhook w b,
     Ev_MH_EnableHook (m_func this) s
       :: reported "HardHook: inject() failed: MH_EnableHook returned %s" s).
Proof.
  intros He. unfold_proc. simpl. rewrite He.
  destruct (bool_decide (s <> MH_OK)); reflexivity.
Qed.

Lemma restore_eq (this : HardHook) (w : World B) s b :
  MH_DisableHook (m_func this) (minhook w) = (s, b) ->
  restore this true w =
    (this, set_minhook w b,
     Ev_MH_DisableHook (m_func this) s
       :: reported "HardHook: restore() failed: MH_DisableHook returned %s" s).
Proof.
  intros He. unfold_proc. simpl. rewrite He.
  destruct (bool_decide (s <> MH_OK)); reflexivity.
Qed.

Lemma lib_calls_app (es1 es2 : list Event) :
  lib_calls (es1 ++ es2) = lib_calls es1 ++ lib_calls es2.
Proof. unfold lib_calls. apply omap_app. Qed.

Lemma lib_calls_fods fmt args (es : list Event) :
  lib_calls (Ev_fods fmt args :: es) = lib_calls es.
Proof. reflexivity. Qed.

Lemma lib_calls_reported fmt s : lib_calls (reported fmt s) = [].
Proof. unfold reported. destruct (bool_decide (s <> MH_OK)); reflexivity. Qed.

Lemma diagnostics_app (es1 es2 : list Event) :
  diagnostics (es1 ++ es2) = diagnostics es1 ++ diagnostics es2.
Proof. unfold diagnostics. apply List.filter_app. Qed.

Lemma diagnostics_reported fmt s : diagnostics (reported fmt s) = reported fmt s.
Proof. unfold reported. destruct (bool_decide (s <> MH_OK)); reflexivity. Qed.

Lemma setup_lib_calls (this : HardHook) (func replacement : voidFunc) (w : World B) :
  lib_calls (events (setup this func replacement w)) =
    [CreateHook func replacement; EnableHook (m_func this)].
Proof.
  destruct (MH_CreateHook func replacement (call this) (minhook w))
    as [[s1 original] b1] eqn:Hc.
  destruct (MH_EnableHook (m_func this) b1) as [s2 b2] eqn:He.
  rewrite (setup_eq _ _ _ _ _ _ _ _ _ Hc He). unfold events. simpl.
  rewrite lib_calls_app, lib_calls_reported. simpl.
  rewrite lib_calls_reported. reflexivity.
Qed.

End Equations.

(** ** reset, and the unforced inject and restore *)

Section Frame.
Context {B : Type} {MH : MinHook B}.

(** C6: in any state of the hook and of the process, [reset] leaves
    [m_func], [m_replacement] and [call] null, calls nothing outside the
    class (no library call, no diagnostic) and leaves the process, the
    state of the library included, as it was. *)
Theorem reset_clears_fields_only (this : HardHook) (w : World B) :
  let r := reset this w in
  m_func (result r) = NULL /\
  m_replacement (result r) = NULL /\
  call (result r) = NULL /\
  world_of r = w /\
  minhook (world_of r) = minhook w /\
  events r = [].
Proof. cbv zeta. unfold reset, ret, result, world_of, events. simpl. tauto. Qed.

Lemma inject_unforced (this : HardHook) (w : World B) :
  inject this false w = (this, w, []).
Proof. reflexivity. Qed.

Lemma restore_unforced (this : HardHook) (w : World B) :
  restore this false w = (this, w, []).
Proof. reflexivity. Qed.

Lemma run_unforced sizeof_pvoid (ops : list Op) (this : HardHook) (w : World B) :
  Forall unforced ops -> run sizeof_pvoid ops this w = Some (this, w, []).
Proof.
  induction 1 as [|op ops Hop _ IH]; [reflexivity|].
  cbn [run]. destruct Hop as [-> | ->]; cbn [step];
    [rewrite inject_unforced | rewrite restore_unforced];
    cbn; rewrite IH; reflexivity.
Qed.

(** C7: [inject(false)] and [restore(false)] return the hook with its
    three fields as they were, leave the process as it was and emit
    nothing; so does any sequence of such calls, however long. *)
Theorem unforced_inject_restore_are_noops sizeof_pvoid (this : HardHook)
    (w : World B) :
  inject this false w = (this, w, []) /\
  restore this false w = (this, w, []) /\
  forall ops : list Op,
    Forall unforced ops -> run sizeof_pvoid ops this w = Some (this, w, []).
Proof.
  split; [apply inject_unforced|].
  split; [apply restore_unforced|].
  intros ops. apply run_unforced.
Qed.

(** C8: [inject(true)] makes one library call, [MH_EnableHook] on the
    stored [m_func], and [restore(true)] one, [MH_DisableHook] on the
    stored [m_func]; a status other than [MH_OK] is followed by one
    diagnostic that names it, [MH_OK] by none; the hook is returned as it
    was. *)
Theorem forced_inject_restore (this : HardHook) (w : World B) :
  let en := MH_EnableHook (m_func this) (minhook w) in
  let dis := MH_DisableHook (m_func this) (minhook w) in
  inject this true w =
    (this, set_minhook w (snd en),
     Ev_MH_EnableHook (m_func this) (fst en)
       :: reported "HardHook: inject() failed: MH_EnableHook returned %s" (fst en)) /\
  restore this true w =
    (this, set_minhook w (snd dis),
     Ev_MH_DisableHook (m_func this) (fst dis)
       :: reported "HardHook: restore() failed: MH_DisableHook returned %s" (fst dis)).
Proof.
  cbv zeta. split.
  - destruct (MH_EnableHook (m_func this) (minhook w)) as [s b] eqn:He.
    apply inject_eq, He.
  - destruct (MH_DisableHook (m_func this) (minhook w)) as [s b] eqn:He.
    apply restore_eq, He.
Qed.

End Frame.

(** ** setup *)

Section Setup.
Context {B : Type} {MH : MinHook B}.

Lemma HardHook_ctor_result (w : World B) :
  result (HardHook_ctor w) =
    {| m_func := NULL; m_replacement := NULL; call := NULL |}.
Proof.
  unfold HardHook_ctor. unfold_proc. unfold result. simpl.
  destruct (minhook_init_once w =? 0); simpl;
    [destruct (MH_Initialize _) as [s b]|]; reflexivity.
Qed.

Lemma HardHook_ctor_memory (w : World B) :
  memory (world_of (HardHook_ctor w)) = memory w.
Proof.
  unfold HardHook_ctor. unfold_proc. unfold world_of. simpl.
  destruct (minhook_init_once w =? 0); simpl;
    [destruct (MH_Initialize _) as [s b]|]; reflexivity.
Qed.

(** C1 (the code departs from it): on a hook made by [HardHook()],
    [setup(0x1000, 0x2000)] creates the redirection for 0x1000 and then
    enables the null address held in [m_func], not 0x1000: the calls are
    not those of the contract, whatever the library answers. *)
Theorem setup_on_default_hook_enables_null (w : World B) :
  let made := HardHook_ctor w in
  let calls :=
    lib_calls (events (setup (result made) 4096 8192 (world_of made))) in
  calls = [CreateHook 4096 8192; EnableHook NULL] /\
  calls <> setup_calls_spec 4096 8192.
Proof.
  cbv zeta. rewrite setup_lib_calls, HardHook_ctor_result. simpl.
  split; [reflexivity | discriminate].
Qed.

(** On the path of the two-argument constructor the field and the
    argument are the same address, and the calls are those of the
    contract. *)
Lemma HardHook_ctor_func_lib_calls storage func replacement (w : World B) :
  minhook_init_once w = 1 ->
  lib_calls (events (HardHook_ctor_func storage func replacement w)) =
    setup_calls_spec func replacement.
Proof.
  intros Hinit. unfold HardHook_ctor_func, EnsureMinHookInitialized,
    InterlockedCompareExchange, bind at 1 2, ret.
  rewrite Hinit. simpl.
  pose proof (setup_lib_calls
    {| m_func := func; m_replacement := replacement; call := storage |}
    func replacement w) as H.
  destruct (setup _ func replacement w) as [[this' w'] es]. exact H.
Qed.

Lemma step_keeps_target sizeof_pvoid (op : Op) (this : HardHook) (w : World B) r :
  op <> OpReset ->
  step sizeof_pvoid op this w = Some r ->
  m_func (result r) = m_func this /\
  m_replacement (result r) = m_replacement this.
Proof.
  intros Hop Hstep. destruct op; cbn [step] in Hstep; try congruence.
  - injection Hstep as <-.
    destruct (MH_CreateHook func replacement (call this) (minhook w))
      as [[s1 original] b1] eqn:Hc.
    destruct (MH_EnableHook (m_func this) b1) as [s2 b2] eqn:He.
    rewrite (setup_eq _ _ _ _ _ _ _ _ _ Hc He). split; reflexivity.
  - unfold setupInterface in Hstep. cbn in Hstep.
    destruct (memory w !! unkn) as [ptr|]; [|discriminate]. cbn in Hstep.
    destruct (memory w !! (ptr + funcoffset * sizeof_pvoid)) as [f|];
      [|discriminate]. cbn in Hstep.
    destruct (MH_CreateHook f replacement (call this) (minhook w))
      as [[s1 original] b1] eqn:Hc.
    destruct (MH_EnableHook (m_func this) b1) as [s2 b2] eqn:He.
    rewrite (setup_eq _ _ _ _ _ _ _ _ _ Hc He) in Hstep.
    injection Hstep as <-. split; reflexivity.
  - injection Hstep as <-. destruct force.
    + destruct (MH_EnableHook (m_func this) (minhook w)) as [s b] eqn:He.
      rewrite (inject_eq _ _ _ _ He). split; reflexivity.
    + split; reflexivity.
  - injection Hstep as <-. destruct force.
    + destruct (MH_DisableHook (m_func this) (minhook w)) as [s b] eqn:He.
      rewrite (restore_eq _ _ _ _ He). split; reflexivity.
    + split; reflexivity.
  - injection Hstep as <-. split; reflexivity.
  - injection Hstep as <-. split; reflexivity.
Qed.

Lemma HardHook_ctor_func_fields storage func replacement (w : World B) :
  let made := HardHook_ctor_func storage func replacement w in
  m_func (result made) = func /\ m_replacement (result made) = replacement.
Proof.
  cbv zeta. unfold HardHook_ctor_func, bind.
  destruct (EnsureMinHookInitialized w) as [[u w1] e1].
  pose proof (step_keeps_target 0 (OpSetup func replacement)
    {| m_func := func; m_replacement := replacement; call := storage |} w1 _
    ltac:(discriminate) eq_refl) as H.
  destruct (setup _ func replacement w1) as [[this2 w2] e2]. exact H.
Qed.

Lemma setupInterface_eq sizeof_pvoid (this : HardHook) unkn funcoffset
    replacement (w : World B) table f :
  memory w !! unkn = Some table ->
  memory w !! (table + funcoffset * sizeof_pvoid) = Some f ->
  setupInterface sizeof_pvoid this unkn funcoffset replacement w =
    Some (result (setup this f replacement w),
          world_of (setup this f replacement w),
          Ev_fods "HardHook: setupInterface: Replacing %p function #%ld"
                  [ArgPtr unkn; ArgLong funcoffset]
            :: events (setup this f replacement w)).
Proof.
  intros Hobj Hslot. unfold setupInterface. cbn.
  rewrite Hobj. cbn. rewrite Hslot. cbn.
  destruct (setup this f replacement w) as [[this' w'] es]. reflexivity.
Qed.

End Setup.

Section SetupClaims.
Context {B : Type} {MH : MinHook B}.

(** C9: [setup] returns the hook with [m_func] and [m_replacement] as
    they were, and so does every method but [reset]; its calls into the
    library are [MH_CreateHook] on its arguments and then
    [MH_EnableHook] on the stored [m_func].  When that field is not the
    [func] argument, [func] is never enabled; on a hook made by
    [HardHook()] and set up through [setupInterface], the address
    enabled is null while the redirection is created for the slot's
    function.  The two-argument constructor is where the two fields
    receive the addresses. *)
Theorem setup_enables_stored_target sizeof_pvoid (this : HardHook)
    (func replacement : voidFunc) (w : World B) :
  let r := setup this func replacement w in
  (m_func (result r) = m_func this /\
   m_replacement (result r) = m_replacement this) /\
  (forall storage,
     let made := HardHook_ctor_func storage func replacement w in
     m_func (result made) = func /\ m_replacement (result made) = replacement) /\
  lib_calls (events r) =
    [CreateHook func replacement; EnableHook (m_func this)] /\
  (m_func this <> func -> EnableHook func ∉ lib_calls (events r)) /\
  (forall op this0 (w0 : World B) r0,
     op <> OpReset ->
     step sizeof_pvoid op this0 w0 = Some r0 ->
     m_func (result r0) = m_func this0 /\
     m_replacement (result r0) = m_replacement this0) /\
  (forall unkn funcoffset table f,
     memory w !! unkn = Some table ->
     memory w !! (table + funcoffset * sizeof_pvoid) = Some f ->
     let made := HardHook_ctor w in
     exists r1,
       setupInterface sizeof_pvoid (result made) unkn funcoffset replacement
                      (world_of made) = Some r1 /\
       lib_calls (events r1) = [CreateHook f replacement; EnableHook NULL]).
Proof.
  cbv zeta. split; [|split; [|split; [|split; [|split]]]].
  - apply (step_keeps_target sizeof_pvoid (OpSetup func replacement) this w);
      [discriminate | reflexivity].
  - intros storage. apply HardHook_ctor_func_fields.
  - apply setup_lib_calls.
  - intros Hne. rewrite setup_lib_calls.
    rewrite !elem_of_cons, elem_of_nil. intros [H | [H | []]]; congruence.
  - intros op this0 w0 r0. apply step_keeps_target.
  - intros unkn funcoffset table f Hobj Hslot.
    eexists. split.
    + apply setupInterface_eq with (table := table) (f := f);
        rewrite HardHook_ctor_memory; assumption.
    + unfold events at 1. cbn [snd].
      rewrite lib_calls_fods, setup_lib_calls, HardHook_ctor_result.
      reflexivity.
Qed.

(** C10: when [MH_CreateHook] answers a status other than [MH_OK],
    [setup] reports it and goes on: [MH_EnableHook] is called all the
    same, on the library state the failed creation left, and its status
    is reported or not by its own value alone. *)
Theorem setup_enables_after_failed_create (this : HardHook)
    (func replacement : voidFunc) (w : World B) s1 original b1 s2 b2 :
  MH_CreateHook func replacement (call this) (minhook w) = (s1, original, b1) ->
  s1 <> MH_OK ->
  MH_EnableHook (m_func this) b1 = (s2, b2) ->
  let r := setup this func replacement w in
  events r =
    [Ev_MH_CreateHook func replacement s1;
     Ev_fods "HardHook: setup failed, MH_CreateHook returned %s"
             [ArgStr (minhook_status_string s1)];
     Ev_MH_EnableHook (m_func this) s2]
    ++ reported "HardHook: setup failed, MH_EnableHook returned %s" s2 /\
  world_of r = set_minhook w b2.
Proof.
  intros Hc Hs1 He. cbv zeta. rewrite (setup_eq _ _ _ _ _ _ _ _ _ Hc He).
  unfold events, world_of. cbn [fst snd]. split; [|reflexivity].
  unfold reported at 1. rewrite bool_decide_true by assumption. reflexivity.
Qed.

Lemma minhook_status_string_nonempty (s : MH_STATUS) :
  minhook_status_string s <> ""%string.
Proof. destruct s; discriminate. Qed.

(** C5: whatever statuses the library answers, [setup], [inject(true)]
    and [restore(true)] return just the hook ([setup] with [call] as
    the library left it, the other two with the hook unchanged), and the
    diagnostics they emit are one record per status other than [MH_OK],
    carrying the non-empty text [minhook_status_string] gives for that
    status. *)
Theorem failures_go_to_the_diagnostic_sink_only (this : HardHook)
    (func replacement : voidFunc) (w : World B)
    s1 original b1 s2 b2 s3 b3 s4 b4 :
  MH_CreateHook func replacement (call this) (minhook w) = (s1, original, b1) ->
  MH_EnableHook (m_func this) b1 = (s2, b2) ->
  MH_EnableHook (m_func this) (minhook w) = (s3, b3) ->
  MH_DisableHook (m_func this) (minhook w) = (s4, b4) ->
  (result (setup this func replacement w) = set_call this original /\
   diagnostics (events (setup this func replacement w)) =
     reported "HardHook: setup failed, MH_CreateHook returned %s" s1
     ++ reported "HardHook: setup failed, MH_EnableHook returned %s" s2) /\
  (result (inject this true w) = this /\
   diagnostics (events (inject this true w)) =
     reported "HardHook: inject() failed: MH_EnableHook returned %s" s3) /\
  (result (restore this true w) = this /\
   diagnostics (events (restore this true w)) =
     reported "HardHook: restore() failed: MH_DisableHook returned %s" s4) /\
  (forall fmt s,
     reported fmt s =
       if bool_decide (s = MH_OK) then []
       else [Ev_fods fmt [ArgStr (minhook_status_string s)]]) /\
  (forall s, minhook_status_string s <> ""%string).
Proof.
  intros Hc He1 He2 Hd.
  rewrite (setup_eq _ _ _ _ _ _ _ _ _ Hc He1), (inject_eq _ _ _ _ He2),
    (restore_eq _ _ _ _ Hd).
  unfold result, events. cbn [fst snd].
  split; [split; [reflexivity|] | split; [split; [reflexivity|] |
    split; [split; [reflexivity|] | split]]].
  - change (diagnostics
      ([Ev_MH_CreateHook func replacement s1]
       ++ reported "HardHook: setup failed, MH_CreateHook returned %s" s1
       ++ [Ev_MH_EnableHook (m_func this) s2]
       ++ reported "HardHook: setup failed, MH_EnableHook returned %s" s2) =
      reported "HardHook: setup failed, MH_CreateHook returned %s" s1
      ++ reported "HardHook: setup failed, MH_EnableHook returned %s" s2).
    rewrite !diagnostics_app, !diagnostics_reported. reflexivity.
  - change (diagnostics
      ([Ev_MH_EnableHook (m_func this) s3]
       ++ reported "HardHook: inject() failed: MH_EnableHook returned %s" s3) =
      reported "HardHook: inject() failed: MH_EnableHook returned %s" s3).
    rewrite diagnostics_app, diagnostics_reported. reflexivity.
  - change (diagnostics
      ([Ev_MH_DisableHook (m_func this) s4]
       ++ reported "HardHook: restore() failed: MH_DisableHook returned %s" s4) =
      reported "HardHook: restore() failed: MH_DisableHook returned %s" s4).
    rewrite diagnostics_app, diagnostics_reported. reflexivity.
  - intros fmt s. unfold reported. destruct (decide (s = MH_OK)) as [->|Hs].
    + reflexivity.
    + rewrite bool_decide_true, bool_decide_false by assumption. reflexivity.
  - apply minhook_status_string_nonempty.
Qed.

End SetupClaims.

(** ** setupInterface *)

Section Interface.
Context {B : Type} {MH : MinHook B}.

Lemma setup_set_memory (this : HardHook) func replacement (w : World B) m :
  setup this func replacement (set_memory w m) =
    (result (setup this func replacement w),
     set_memory (world_of (setup this func replacement w)) m,
     events (setup this func replacement w)).
Proof.
  destruct (MH_CreateHook func replacement (call this) (minhook w))
    as [[s1 original] b1] eqn:Hc.
  destruct (MH_EnableHook (m_func this) b1) as [s2 b2] eqn:He.
  rewrite (setup_eq this func replacement w _ _ _ _ _ Hc He).
  rewrite (setup_eq this func replacement (set_memory w m) _ _ _ _ _ Hc He).
  reflexivity.
Qed.

(** C4: for an object whose first cell points to the dispatch table
    [f0; ...; fn] and a slot [k] of that table, [setupInterface] first
    emits the diagnostic with the object address and the slot index and
    then does what [setup] does with [fk] and the given replacement: the
    one redirection created is for [fk].  The outcome is the same in any
    memory that holds the same table pointer and the same slot [k],
    whatever the other slots hold. *)
Theorem setupInterface_hooks_slot sizeof_pvoid (this : HardHook)
    (unkn table : LPVOID) (fs : list Z) (k : nat) (fk replacement : voidFunc)
    (w : World B) :
  memory w !! unkn = Some table ->
  dispatch_table sizeof_pvoid (memory w) table fs ->
  fs !! k = Some fk ->
  let s := setup this fk replacement w in
  let record :=
    Ev_fods "HardHook: setupInterface: Replacing %p function #%ld"
            [ArgPtr unkn; ArgLong (Z.of_nat k)] in
  setupInterface sizeof_pvoid this unkn (Z.of_nat k) replacement w =
    Some (result s, world_of s, record :: events s) /\
  lib_calls (record :: events s) =
    [CreateHook fk replacement; EnableHook (m_func this)] /\
  (forall m' : gmap Z Z,
     m' !! unkn = Some table ->
     m' !! (table + Z.of_nat k * sizeof_pvoid) = Some fk ->
     setupInterface sizeof_pvoid this unkn (Z.of_nat k) replacement
                    (set_memory w m') =
       Some (result s, set_memory (world_of s) m', record :: events s)).
Proof.
  intros Hobj Htable Hk. cbv zeta.
  split; [|split].
  - apply setupInterface_eq with (table := table); [assumption|].
    apply Htable, Hk.
  - rewrite lib_calls_fods. apply setup_lib_calls.
  - intros m' Hobj' Hslot'.
    rewrite (setupInterface_eq sizeof_pvoid this unkn (Z.of_nat k) replacement
               (set_memory w m') table fk Hobj' Hslot').
    rewrite setup_set_memory. reflexivity.
Qed.

End Interface.

(** ** One initialization for the whole process *)

Section Bootstrap.
Context {B : Type} {MH : MinHook B}.

Lemma count_MH_Initialize_app (es1 es2 : list Event) :
  count_MH_Initialize (es1 ++ es2) =
    (count_MH_Initialize es1 + count_MH_Initialize es2)%nat.
Proof.
  unfold count_MH_Initialize. rewrite List.filter_app. apply length_app.
Qed.

Lemma count_MH_Initialize_reported fmt s :
  count_MH_Initialize (reported fmt s) = 0%nat.
Proof. unfold reported. destruct (bool_decide (s <> MH_OK)); reflexivity. Qed.

(** The guard: the routine is entered when the flag is 0, and the flag
    is 1 afterwards; with any other value nothing happens. *)
Lemma EnsureMinHookInitialized_first (w : World B) :
  minhook_init_once w = 0 ->
  let r := EnsureMinHookInitialized w in
  count_MH_Initialize (events r) = 1%nat /\ minhook_init_once (world_of r) = 1.
Proof.
  intros H0. cbv zeta. unfold_proc. rewrite H0. simpl.
  destruct (MH_Initialize (minhook w)) as [s b]. split; reflexivity.
Qed.

Lemma EnsureMinHookInitialized_later (w : World B) :
  minhook_init_once w <> 0 ->
  EnsureMinHookInitialized w = (tt, w, []).
Proof.
  intros H0. unfold_proc. apply Z.eqb_neq in H0. rewrite H0. reflexivity.
Qed.

Lemma setup_no_initialize (this : HardHook) func replacement (w : World B) :
  let r := setup this func replacement w in
  count_MH_Initialize (events r) = 0%nat /\
  minhook_init_once (world_of r) = minhook_init_once w.
Proof.
  cbv zeta.
  destruct (MH_CreateHook func replacement (call this) (minhook w))
    as [[s1 original] b1] eqn:Hc.
  destruct (MH_EnableHook (m_func this) b1) as [s2 b2] eqn:He.
  rewrite (setup_eq _ _ _ _ _ _ _ _ _ Hc He). unfold events, world_of.
  cbn [fst snd]. split; [|reflexivity].
  change (count_MH_Initialize
    ([Ev_MH_CreateHook func replacement s1]
     ++ reported "HardHook: setup failed, MH_CreateHook returned %s" s1
     ++ [Ev_MH_EnableHook (m_func this) s2]
     ++ reported "HardHook: setup failed, MH_EnableHook returned %s" s2) = 0%nat).
  rewrite !count_MH_Initialize_app, !count_MH_Initialize_reported. reflexivity.
Qed.

Lemma construct_first (c : Ctor) (w : World B) :
  minhook_init_once w = 0 ->
  let r := construct c w in
  count_MH_Initialize (events r) = 1%nat /\ minhook_init_once (world_of r) = 1.
Proof.
  intros H0. cbv zeta.
  destruct (EnsureMinHookInitialized_first w H0) as [Hn Hf].
  destruct c as [|storage func replacement]; cbn [construct].
  - unfold HardHook_ctor, bind, ret.
    destruct (EnsureMinHookInitialized w) as [[u w1] e1].
    unfold events, world_of in *. cbn [fst snd] in *.
    rewrite app_nil_r. split; assumption.
  - unfold HardHook_ctor_func, bind.
    destruct (EnsureMinHookInitialized w) as [[u w1] e1].
    pose proof (setup_no_initialize
      {| m_func := func; m_replacement := replacement; call := storage |}
      func replacement w1) as [Hn2 Hf2].
    destruct (setup _ func replacement w1) as [[this2 w2] e2].
    unfold events, world_of in *. cbn [fst snd] in *.
    rewrite count_MH_Initialize_app, Hn, Hn2, Hf2. split; [reflexivity|assumption].
Qed.

Lemma construct_later (c : Ctor) (w : World B) :
  minhook_init_once w <> 0 ->
  let r := construct c w in
  count_MH_Initialize (events r) = 0%nat /\
  minhook_init_once (world_of r) = minhook_init_once w.
Proof.
  intros H0. cbv zeta.
  destruct c as [|storage func replacement]; cbn [construct].
  - unfold HardHook_ctor, bind, ret.
    rewrite (EnsureMinHookInitialized_later w H0). split; reflexivity.
  - unfold HardHook_ctor_func, bind.
    rewrite (EnsureMinHookInitialized_later w H0).
    pose proof (setup_no_initialize
      {| m_func := func; m_replacement := replacement; call := storage |}
      func replacement w) as [Hn2 Hf2].
    destruct (setup _ func replacement w) as [[this2 w2] e2].
    unfold events, world_of in *. cbn [fst snd] in *. split; assumption.
Qed.

Lemma construct_all_later (cs : list Ctor) (w : World B) :
  minhook_init_once w <> 0 ->
  count_MH_Initialize (events (construct_all cs w)) = 0%nat.
Proof.
  revert w. induction cs as [|c cs IH]; intros w H0; [reflexivity|].
  cbn [construct_all]. unfold bind, ret.
  destruct (construct_later c w H0) as [Hn Hf].
  destruct (construct c w) as [[this w1] e1].
  unfold events, world_of in Hn, Hf. cbn [fst snd] in Hn, Hf.
  assert (H1 : minhook_init_once w1 <> 0) by (rewrite Hf; exact H0).
  specialize (IH w1 H1).
  destruct (construct_all cs w1) as [[rest w2] e2].
  unfold events in *. cbn [snd] in *.
  rewrite app_nil_r, count_MH_Initialize_app, Hn, IH. reflexivity.
Qed.

(** No method enters [MH_Initialize] or touches the flag. *)
Lemma step_no_initialize sizeof_pvoid (op : Op) (this : HardHook) (w : World B) r :
  step sizeof_pvoid op this w = Some r ->
  count_MH_Initialize (events r) = 0%nat /\
  minhook_init_once (world_of r) = minhook_init_once w.
Proof.
  intros Hstep. destruct op; cbn [step] in Hstep.
  - injection Hstep as <-. apply setup_no_initialize.
  - unfold setupInterface in Hstep. cbn in Hstep.
    destruct (memory w !! unkn) as [table|]; [|discriminate]. cbn in Hstep.
    destruct (memory w !! (table + funcoffset * sizeof_pvoid)) as [f|];
      [|discriminate]. cbn in Hstep.
    pose proof (setup_no_initialize this f replacement w) as H. cbv zeta in H.
    destruct (setup this f replacement w) as [[this1 w1] e1].
    injection Hstep as <-. exact H.
  - injection Hstep as <-. destruct force.
    + destruct (MH_EnableHook (m_func this) (minhook w)) as [s b] eqn:He.
      rewrite (inject_eq _ _ _ _ He). unfold events, world_of. cbn [fst snd].
      split; [|reflexivity].
      apply (count_MH_Initialize_reported
               "HardHook: inject() failed: MH_EnableHook returned %s" s).
    + split; reflexivity.
  - injection Hstep as <-. destruct force.
    + destruct (MH_DisableHook (m_func this) (minhook w)) as [s b] eqn:He.
      rewrite (restore_eq _ _ _ _ He). unfold events, world_of. cbn [fst snd].
      split; [|reflexivity].
      apply (count_MH_Initialize_reported
               "HardHook: restore() failed: MH_DisableHook returned %s" s).
    + split; reflexivity.
  - injection Hstep as <-. split; reflexivity.
  - injection Hstep as <-. split; reflexivity.
  - injection Hstep as <-. split; reflexivity.
Qed.

(** C2: in a process started with [minhook_init_once = 0], whatever
    hooks are constructed, in whatever number and order and with either
    constructor, the first construction enters [MH_Initialize] once,
    no later construction enters it, and the whole sequence has entered
    it exactly once. *)
Theorem MH_Initialize_entered_exactly_once (b : B) (m : gmap Z Z)
    (c : Ctor) (cs : list Ctor) :
  let first := construct c (startup b m) in
  count_MH_Initialize (events first) = 1%nat /\
  count_MH_Initialize (events (construct_all cs (world_of first))) = 0%nat /\
  count_MH_Initialize (events (construct_all (c :: cs) (startup b m))) = 1%nat.
Proof.
  cbv zeta.
  destruct (construct_first c (startup b m) eq_refl) as [Hn Hf].
  assert (H1 : minhook_init_once (world_of (construct c (startup b m))) <> 0)
    by (rewrite Hf; discriminate).
  pose proof (construct_all_later cs _ H1) as Hrest.
  split; [assumption|]. split; [assumption|].
  cbn [construct_all]. unfold bind, ret.
  destruct (construct c (startup b m)) as [[this w1] e1].
  unfold events, world_of in *. cbn [fst snd] in *.
  destruct (construct_all cs w1) as [[rest w2] e2]. cbn [snd] in *.
  rewrite app_nil_r, count_MH_Initialize_app, Hn, Hrest. reflexivity.
Qed.

End Bootstrap.

(** ** The trampoline over the life of a hook *)

Section Trampoline.
Context {B : Type} {MH : MinHook B}.

Lemma create_ok_app (es1 es2 : list Event) :
  create_ok (es1 ++ es2) = create_ok es1 || create_ok es2.
Proof. unfold create_ok. apply existsb_app. Qed.

Lemma create_ok_reported fmt s : create_ok (reported fmt s) = false.
Proof. unfold reported. destruct (bool_decide (s <> MH_OK)); reflexivity. Qed.

Lemma setup_create_ok (this : HardHook) func replacement (w : World B)
    s1 original b1 :
  MH_CreateHook func replacement (call this) (minhook w) = (s1, original, b1) ->
  create_ok (events (setup this func replacement w)) = bool_decide (s1 = MH_OK) /\
  call (result (setup this func replacement w)) = original.
Proof.
  intros Hc.
  destruct (MH_EnableHook (m_func this) b1) as [s2 b2] eqn:He.
  rewrite (setup_eq _ _ _ _ _ _ _ _ _ Hc He). unfold events, result.
  cbn [fst snd]. split; [|reflexivity].
  change (create_ok
    ([Ev_MH_CreateHook func replacement s1]
     ++ reported "HardHook: setup failed, MH_CreateHook returned %s" s1
     ++ [Ev_MH_EnableHook (m_func this) s2]
     ++ reported "HardHook: setup failed, MH_EnableHook returned %s" s2) =
    bool_decide (s1 = MH_OK)).
  rewrite !create_ok_app, !create_ok_reported. destruct s1; reflexivity.
Qed.

Hypothesis contract : stores_trampoline_iff_ok MH.

(** [setup] leaves a non-null [call] exactly when [call] was non-null
    before or the creation answered [MH_OK]. *)
Lemma setup_trampoline (this : HardHook) func replacement (w : World B)
    (flag : bool) :
  (call this <> NULL <-> flag = true) ->
  let r := setup this func replacement w in
  call (result r) <> NULL <-> flag || create_ok (events r) = true.
Proof.
  intros Hinv. cbv zeta.
  destruct (MH_CreateHook func replacement (call this) (minhook w))
    as [[s1 original] b1] eqn:Hc.
  destruct (setup_create_ok this func replacement w _ _ _ Hc) as [-> ->].
  pose proof (contract func replacement (call this) (minhook w)) as Hk.
  rewrite Hc in Hk. destruct (decide (s1 = MH_OK)) as [Hs | Hs].
  - rewrite bool_decide_true in * by assumption.
    rewrite orb_true_r. tauto.
  - rewrite bool_decide_false in * by assumption.
    rewrite orb_false_r, Hk. exact Hinv.
Qed.

Lemma step_trampoline sizeof_pvoid (op : Op) (this : HardHook) (w : World B)
    (flag : bool) this' w' es :
  (call this <> NULL <-> flag = true) ->
  step sizeof_pvoid op this w = Some (this', w', es) ->
  call this' <> NULL <-> flag_step create_ok op es flag = true.
Proof.
  intros Hinv Hstep. destruct op; cbn [step flag_step] in *.
  - pose proof (setup_trampoline this func replacement w flag Hinv) as H.
    cbv zeta in H. injection Hstep as Hstep. rewrite Hstep in H. exact H.
  - unfold setupInterface in Hstep. cbn in Hstep.
    destruct (memory w !! unkn) as [table|]; [|discriminate]. cbn in Hstep.
    destruct (memory w !! (table + funcoffset * sizeof_pvoid)) as [f|];
      [|discriminate]. cbn in Hstep.
    pose proof (setup_trampoline this f replacement w flag Hinv) as H.
    cbv zeta in H. destruct (setup this f replacement w) as [[this1 w1] e1].
    injection Hstep as <- <- <-. exact H.
  - injection Hstep as Hstep. destruct force.
    + destruct (MH_EnableHook (m_func this) (minhook w)) as [s b] eqn:He.
      rewrite (inject_eq _ _ _ _ He) in Hstep.
      injection Hstep as <- _ _. exact Hinv.
    + rewrite inject_unforced in Hstep. injection Hstep as <- _ _. exact Hinv.
  - injection Hstep as Hstep. destruct force.
    + destruct (MH_DisableHook (m_func this) (minhook w)) as [s b] eqn:He.
      rewrite (restore_eq _ _ _ _ He) in Hstep.
      injection Hstep as <- _ _. exact Hinv.
    + rewrite restore_unforced in Hstep. injection Hstep as <- _ _. exact Hinv.
  - unfold reset, ret in Hstep. injection Hstep as <- _ _.
    cbn. unfold NULL. split; congruence.
  - unfold print, fods, bind, ret in Hstep. injection Hstep as <- _ _.
    exact Hinv.
  - unfold check, fods, bind, ret in Hstep. injection Hstep as <- _ _.
    exact Hinv.
Qed.

Lemma tracked_trampoline sizeof_pvoid (ops : list Op) (this : HardHook)
    (w : World B) (flag : bool) this' w' flag' :
  (call this <> NULL <-> flag = true) ->
  tracked sizeof_pvoid create_ok ops this w flag = Some (this', w', flag') ->
  call this' <> NULL <-> flag' = true.
Proof.
  revert this w flag. induction ops as [|op ops IH]; intros this w flag Hinv Hrun.
  - cbn in Hrun. injection Hrun as <- _ <-. exact Hinv.
  - cbn [tracked] in Hrun.
    destruct (step sizeof_pvoid op this w) as [[[this1 w1] e1]|] eqn:Hstep;
      [|discriminate].
    cbn in Hrun. eapply IH; [|exact Hrun].
    eapply step_trampoline; eassumption.
Qed.

(** The flag rides along a run: the states of [tracked] are those of [run]. *)
Lemma tracked_run sizeof_pvoid ok (ops : list Op) (this : HardHook)
    (w : World B) (flag : bool) this' w' flag' :
  tracked sizeof_pvoid ok ops this w flag = Some (this', w', flag') ->
  exists es, run sizeof_pvoid ops this w = Some (this', w', es).
Proof.
  revert this w flag. induction ops as [|op ops IH]; intros this w flag Hrun.
  - cbn in Hrun. injection Hrun as <- <- _. exists []. reflexivity.
  - cbn [tracked run] in *.
    destruct (step sizeof_pvoid op this w) as [[[this1 w1] e1]|]; [|discriminate].
    cbn in *. destruct (IH _ _ _ Hrun) as [es ->]. cbn. eauto.
Qed.

Lemma construct_trampoline (c : Ctor) (w : World B) :
  storage_zeroed c ->
  let r := construct c w in
  call (result r) <> NULL <-> flag_ctor create_ok c (events r) = true.
Proof.
  intros Hz. cbv zeta. destruct c as [|storage func replacement].
  - cbn [construct flag_ctor]. rewrite HardHook_ctor_result. cbn.
    unfold NULL. split; congruence.
  - cbn in Hz. subst storage. cbn [construct flag_ctor].
    unfold HardHook_ctor_func, bind.
    assert (Hinit : create_ok (events (EnsureMinHookInitialized w)) = false).
    { unfold_proc. unfold events.
      destruct (minhook_init_once w =? 0); cbn;
        [destruct (MH_Initialize _) as [s b]|]; reflexivity. }
    destruct (EnsureMinHookInitialized w) as [[u w1] e1].
    unfold events in Hinit. cbn [snd] in Hinit.
    pose proof (setup_trampoline
      {| m_func := func; m_replacement := replacement; call := NULL |}
      func replacement w1 false) as H.
    cbv zeta in H.
    destruct (setup _ func replacement w1) as [[this2 w2] e2].
    unfold events, result in *. cbn [fst snd] in *.
    rewrite create_ok_app, Hinit. apply H. split; [tauto | discriminate].
Qed.

End Trampoline.

Section TrampolineClaims.
Context {B : Type} {MH : MinHook B}.

(** C3, as the code has it: with a library that stores a non-null
    trampoline when [MH_CreateHook] answers [MH_OK] and stores nothing
    otherwise, for a hook constructed on zeroed storage (by [HardHook()],
    or by the two-argument constructor in static storage), after any
    sequence of [setup], [setupInterface], [inject], [restore], [reset],
    [print] and [check]: [call] is non-null exactly when the
    create-redirection sub-step of some [setup] has answered [MH_OK] and
    [reset] has not been called since.  The status of the enable
    sub-step plays no part. *)
Theorem trampoline_iff_create_succeeded sizeof_pvoid (c : Ctor)
    (ops : list Op) (w : World B) this w' flag :
  stores_trampoline_iff_ok MH ->
  storage_zeroed c ->
  history sizeof_pvoid create_ok c ops w = Some (this, w', flag) ->
  (call this <> NULL <-> flag = true).
Proof.
  intros Hk Hz Hrun. unfold history in Hrun.
  pose proof (construct_trampoline Hk c w Hz) as Hc. cbv zeta in Hc.
  destruct (construct c w) as [[this0 w0] e0].
  unfold result, events in Hc. cbn [fst snd] in Hc.
  eapply tracked_trampoline; eassumption.
Qed.

End TrampolineClaims.

Lemma Scripted_stores_trampoline_iff_ok : stores_trampoline_iff_ok Scripted_MinHook.
Proof.
  intros pTarget pDetour original b. cbn. unfold scripted_create.
  destruct (next_status b) as [s b1].
  destruct (decide (s = MH_OK)) as [Hs | Hs].
  - rewrite !bool_decide_true by assumption. discriminate.
  - rewrite !bool_decide_false by assumption. reflexivity.
Defined.

(** C3 as the spec words it fails: the two-argument constructor on zeroed
    storage, with [MH_CreateHook] answering [MH_OK] and [MH_EnableHook]
    answering [MH_ERROR_MEMORY_PROTECT], leaves [call] at the trampoline
    0x7000 although no [setup] has succeeded. *)
Lemma trampoline_iff_installed_fails :
  (exists this w',
     installed 8 (NewFunc NULL 4096 8192) []
               (sample_world [MH_OK; MH_OK; MH_ERROR_MEMORY_PROTECT])
       = Some (this, w', false) /\
     call this = 28672) /\
  ~ trampoline_iff_installed.
Proof.
  assert (Hrun : exists this w',
     installed 8 (NewFunc NULL 4096 8192) []
               (sample_world [MH_OK; MH_OK; MH_ERROR_MEMORY_PROTECT])
       = Some (this, w', false) /\
     call this = 28672).
  { eexists _, _. split; [vm_compute; reflexivity | reflexivity]. }
  split; [exact Hrun|].
  destruct Hrun as (this & w' & Hrun & Hcall). intros H.
  destruct (H Scripted _ 8 _ _ _ this w' false Hrun) as [Hfwd _].
  discriminate Hfwd. rewrite Hcall. discriminate.
Qed.

(** ** The theorems at sample inputs *)

Lemma sample_dispatch_table : dispatch_table 8 sample_memory 24576 sample_table.
Proof.
  intros i f Hi. destruct i as [|[|[|i]]]; cbn in Hi;
    [injection Hi as <-; reflexivity ..| discriminate Hi].
Defined.

Lemma trampoline_iff_create_succeeded_witness :
  stores_trampoline_iff_ok Scripted_MinHook /\
  storage_zeroed New /\
  exists this w' flag,
    history 8 create_ok New [OpSetup 4096 8192; OpInject true]
            (sample_world [MH_OK; MH_OK; MH_ERROR_MEMORY_PROTECT])
      = Some (this, w', flag) /\
    (call this <> NULL <-> flag = true).
Proof.
  split; [exact Scripted_stores_trampoline_iff_ok|]. split; [exact I|].
  eexists _, _, _. split; [vm_compute; reflexivity|].
  apply (trampoline_iff_create_succeeded 8 New [OpSetup 4096 8192; OpInject true]
           (sample_world [MH_OK; MH_OK; MH_ERROR_MEMORY_PROTECT]) _
           (set_minhook
              (set_minhook_init_once (sample_world []) 1)
              {| script := []; next_trampoline := 28673 |}) _
           Scripted_stores_trampoline_iff_ok I).
  vm_compute. reflexivity.
Defined.

Lemma setupInterface_hooks_slot_witness :
  memory (sample_world []) !! 20480 = Some 24576 /\
  dispatch_table 8 (memory (sample_world [])) 24576 sample_table /\
  sample_table !! 1%nat = Some 4352 /\
  lib_calls
    (Ev_fods "HardHook: setupInterface: Replacing %p function #%ld"
             [ArgPtr 20480; ArgLong 1]
       :: events (setup sample_hook 4352 8192 (sample_world [])))
    = [CreateHook 4352 8192; EnableHook 4096].
Proof.
  split; [reflexivity|]. split; [exact sample_dispatch_table|].
  split; [reflexivity|].
  exact (proj1 (proj2
    (setupInterface_hooks_slot 8 sample_hook 20480 24576 sample_table 1 4352 8192
       (sample_world []) eq_refl sample_dispatch_table eq_refl))).
Defined.

Lemma failures_go_to_the_diagnostic_sink_only_witness :
  let w := sample_world [MH_ERROR_ALREADY_CREATED; MH_ERROR_ENABLED] in
  result (setup sample_hook 4096 8192 w) = sample_hook /\
  diagnostics (events (setup sample_hook 4096 8192 w)) =
    [Ev_fods "HardHook: setup failed, MH_CreateHook returned %s"
             [ArgStr "MH_ERROR_ALREADY_CREATED"];
     Ev_fods "HardHook: setup failed, MH_EnableHook returned %s"
             [ArgStr "MH_ERROR_ENABLED"]].
Proof.
  exact (proj1
    (failures_go_to_the_diagnostic_sink_only sample_hook 4096 8192
       (sample_world [MH_ERROR_ALREADY_CREATED; MH_ERROR_ENABLED])
       MH_ERROR_ALREADY_CREATED NULL (sample_library [MH_ERROR_ENABLED])
       MH_ERROR_ENABLED (sample_library [])
       MH_ERROR_ALREADY_CREATED (sample_library [MH_ERROR_ENABLED])
       MH_ERROR_ALREADY_CREATED (sample_library [MH_ERROR_ENABLED])
       eq_refl eq_refl eq_refl eq_refl)).
Defined.

Lemma setup_enables_after_failed_create_witness :
  let w := sample_world [MH_ERROR_NOT_EXECUTABLE; MH_ERROR_NOT_CREATED] in
  MH_ERROR_NOT_EXECUTABLE <> MH_OK /\
  events (setup sample_hook 4096 8192 w) =
    [Ev_MH_CreateHook 4096 8192 MH_ERROR_NOT_EXECUTABLE;
     Ev_fods "HardHook: setup failed, MH_CreateHook returned %s"
             [ArgStr "MH_ERROR_NOT_EXECUTABLE"];
     Ev_MH_EnableHook 4096 MH_ERROR_NOT_CREATED;
     Ev_fods "HardHook: setup failed, MH_EnableHook returned %s"
             [ArgStr "MH_ERROR_NOT_CREATED"]].
Proof.
  split; [discriminate|].
  exact (proj1
    (setup_enables_after_failed_create sample_hook 4096 8192
       (sample_world [MH_ERROR_NOT_EXECUTABLE; MH_ERROR_NOT_CREATED])
       MH_ERROR_NOT_EXECUTABLE NULL (sample_library [MH_ERROR_NOT_CREATED])
       MH_ERROR_NOT_CREATED (sample_library [])
       eq_refl ltac:(discriminate) eq_refl)).
Defined.

Lemma unforced_inject_restore_are_noops_witness :
  Forall unforced [OpInject false; OpRestore false; OpInject false] /\
  run 8 [OpInject false; OpRestore false; OpInject false]
      sample_hook (sample_world []) = Some (sample_hook, sample_world [], []).
Proof.
  assert (H : Forall unforced [OpInject false; OpRestore false; OpInject false]).
  { constructor; [left; reflexivity|].
    constructor; [right; reflexivity|].
    constructor; [left; reflexivity|]. constructor. }
  split; [exact H|].
  exact (proj2 (proj2
    (unforced_inject_restore_are_noops 8 sample_hook (sample_world []))) _ H).
Defined.

Lemma setup_enables_stored_target_witness :
  sample_hook.(m_func) <> 4352 /\
  lib_calls (events (setup sample_hook 4352 8192 (sample_world []))) =
    [CreateHook 4352 8192; EnableHook 4096] /\
  EnableHook 4352 ∉ lib_calls (events (setup sample_hook 4352 8192 (sample_world []))).
Proof.
  assert (Hne : sample_hook.(m_func) <> 4352) by discriminate.
  destruct (setup_enables_stored_target 8 sample_hook 4352 8192 (sample_world []))
    as (_ & _ & Hcalls & Hstale & _).
  split; [exact Hne|]. split; [exact Hcalls | exact (Hstale Hne)].
Defined.

(** ** The guard under interleaving *)

Section InterleavingProperties.
Context {B : Type} {MH : MinHook B}.

(** Run alone, the two steps are the function. *)
Lemma ensure_step_twice (w : World B) :
  let r := bind (ensure_step AtCompareExchange) ensure_step w in
  result r = Returned /\
  world_of r = world_of (EnsureMinHookInitialized w) /\
  events r = events (EnsureMinHookInitialized w).
Proof.
  cbv zeta. unfold ensure_step. unfold_proc. unfold result, world_of, events.
  cbn. destruct (minhook_init_once w =? 0); cbn.
  - destruct (MH_Initialize (minhook w)) as [s b]. cbn. tauto.
  - tauto.
Qed.

Lemma count_pc_insert (f : pc -> bool) (threads : list pc) (i : nat) p p' :
  threads !! i = Some p ->
  (count_pc f (<[i:=p']> threads) + Nat.b2n (f p) =
   count_pc f threads + Nat.b2n (f p'))%nat.
Proof.
  revert i. induction threads as [|q threads IH]; intros [|i] Hi;
    try discriminate Hi.
  - cbn in Hi. injection Hi as ->.
    change (<[0%nat:=p']> (p :: threads)) with (p' :: threads).
    cbn [count_pc]. generalize (Nat.b2n (f p)) (Nat.b2n (f p')). lia.
  - cbn in Hi. specialize (IH i Hi). revert IH.
    change (<[S i:=p']> (q :: threads)) with (q :: <[i:=p']> threads).
    cbn [count_pc].
    generalize (Nat.b2n (f p)) (Nat.b2n (f p')) (Nat.b2n (f q)). lia.
Qed.

Lemma count_pc_none_started (threads : list pc) :
  Forall (eq AtCompareExchange) threads ->
  count_pc is_AtInitialize threads = 0%nat.
Proof. induction 1 as [|p threads <- _ IH]; cbn; [reflexivity | exact IH]. Qed.

Lemma count_pc_all_returned (threads : list pc) :
  Forall (eq Returned) threads ->
  count_pc is_AtInitialize threads = 0%nat.
Proof. induction 1 as [|p threads <- _ IH]; cbn; [reflexivity | exact IH]. Qed.

Lemma ensure_step_inv (threads : list pc) (w : World B) (n : nat) (i : nat) p :
  guard_inv threads w n ->
  threads !! i = Some p ->
  let r := ensure_step p w in
  guard_inv (<[i:=result r]> threads) (world_of r)
            (n + count_MH_Initialize (events r)).
Proof.
  intros Hinv Hi. cbv zeta.
  pose proof (count_pc_insert is_AtInitialize threads i p) as Hcount.
  destruct Hinv as [(Hflag & Hall & ->) | (Hflag & Hone)].
  - assert (p = AtCompareExchange) as ->.
    { rewrite Forall_lookup in Hall. symmetry. exact (Hall i p Hi). }
    unfold ensure_step. unfold_proc. unfold result, world_of, events.
    cbn. rewrite Hflag. cbn. right. split; [reflexivity|].
    specialize (Hcount AtInitialize Hi). cbn in Hcount.
    rewrite (count_pc_none_started threads Hall) in Hcount. lia.
  - right. destruct p; unfold ensure_step; unfold_proc;
      unfold result, world_of, events; cbn.
    + rewrite Hflag. cbn. split; [assumption|].
      specialize (Hcount Returned Hi). cbn in Hcount. lia.
    + destruct (MH_Initialize (minhook w)) as [s b]. cbn.
      split; [assumption|].
      specialize (Hcount Returned Hi). cbn in Hcount. lia.
    + split; [assumption|].
      specialize (Hcount Returned Hi). cbn in Hcount. lia.
Qed.

Lemma interleave_inv (schedule : list nat) (threads : list pc) (w : World B)
    (n : nat) :
  guard_inv threads w n ->
  let r := interleave schedule threads w in
  guard_inv (result r) (world_of r) (n + count_MH_Initialize (events r)) /\
  length (result r) = length threads.
Proof.
  revert threads w n. induction schedule as [|i schedule IH];
    intros threads w n Hinv; cbv zeta.
  - cbn. rewrite Nat.add_0_r. split; [exact Hinv | reflexivity].
  - cbn [interleave]. destruct (threads !! i) as [p|] eqn:Hi.
    + pose proof (ensure_step_inv threads w n i p Hinv Hi) as Hstep.
      cbv zeta in Hstep. unfold bind.
      destruct (ensure_step p w) as [[p' w1] e1].
      unfold result, world_of, events in Hstep. cbn [fst snd] in Hstep.
      specialize (IH _ _ _ Hstep). cbv zeta in IH.
      destruct (interleave schedule (<[i:=p']> threads) w1) as [[ts w2] e2].
      unfold result, world_of, events in *. cbn [fst snd] in *.
      rewrite count_MH_Initialize_app, Nat.add_assoc.
      rewrite length_insert in IH. exact IH.
    + apply IH, Hinv.
Qed.

(** X10, concurrent first use: any number of threads that construct their
    first hook at the same time, in any interleaving of the interlocked
    step and the call of [MH_Initialize]: the routine is never entered
    twice, and once every thread has left the guard it has been entered
    exactly once. *)
Lemma MH_Initialize_entered_once_concurrently (b : B) (m : gmap Z Z)
    (nthreads : nat) (schedule : list nat) :
  let r := interleave schedule (replicate nthreads AtCompareExchange)
                      (startup b m) in
  (count_MH_Initialize (events r) <= 1)%nat /\
  ((0 < nthreads)%nat -> Forall (eq Returned) (result r) ->
   count_MH_Initialize (events r) = 1%nat).
Proof.
  cbv zeta.
  assert (Hinit : guard_inv (replicate nthreads AtCompareExchange)
                            (startup b m) 0).
  { left. split; [reflexivity|]. split; [|reflexivity].
    apply Forall_replicate. reflexivity. }
  destruct (interleave_inv schedule _ _ _ Hinit) as [Hinv Hlen].
  rewrite length_replicate in Hlen. cbn in Hinv.
  destruct Hinv as [(_ & Hall & Hn) | (_ & Hone)].
  - split; [lia|]. intros Hpos Hret.
    destruct (result (interleave schedule _ (startup b m))) as [|p ts];
      [cbn in Hlen; lia|].
    inversion Hall; inversion Hret; congruence.
  - split; [lia|]. intros _ Hret.
    rewrite (count_pc_all_returned _ Hret) in Hone. lia.
Qed.

End InterleavingProperties.

(** Three threads race for the first hook: thread 0 wins the interlocked
    step, threads 1 and 2 leave the guard, then thread 0 enters
    [MH_Initialize]. *)
Example three_threads_race :
  let r := interleave [0; 1; 2; 0]%nat (replicate 3 AtCompareExchange)
                      (sample_world []) in
  result r = [Returned; Returned; Returned] /\
  events r = [Ev_MH_Initialize MH_OK].
Proof. split; reflexivity. Qed.

(** * Further properties of the file *)

(** ** What each method is, case by case *)

Section Forms.
Context {B : Type} {MH : MinHook B}.

Lemma setup_form (this : HardHook) (func replacement : voidFunc) (w : World B) :
  exists s1 original b1 s2 b2,
    MH_CreateHook func replacement (call this) (minhook w) = (s1, original, b1) /\
    MH_EnableHook (m_func this) b1 = (s2, b2) /\
    setup this func replacement w =
      (set_call this original, set_minhook w b2,
       Ev_MH_CreateHook func replacement s1
         :: reported "HardHook: setup failed, MH_CreateHook returned %s" s1
         ++ Ev_MH_EnableHook (m_func this) s2
         :: reported "HardHook: setup failed, MH_EnableHook returned %s" s2).
Proof.
  destruct (MH_CreateHook func replacement (call this) (minhook w))
    as [[s1 original] b1] eqn:Hc.
  destruct (MH_EnableHook (m_func this) b1) as [s2 b2] eqn:He.
  exists s1, original, b1, s2, b2. split; [reflexivity|]. split; [exact He|].
  exact (setup_eq _ _ _ _ _ _ _ _ _ Hc He).
Qed.

Lemma inject_form (this : HardHook) (force : bool) (w : World B) :
  exists s b,
    inject this force w =
      if force
      then (this, set_minhook w b,
            Ev_MH_EnableHook (m_func this) s
              :: reported "HardHook: inject() failed: MH_EnableHook returned %s" s)
      else (this, w, []).
Proof.
  destruct force.
  - destruct (MH_EnableHook (m_func this) (minhook w)) as [s b] eqn:He.
    exists s, b. apply inject_eq, He.
  - exists MH_OK, (minhook w). reflexivity.
Qed.

Lemma restore_form (this : HardHook) (force : bool) (w : World B) :
  exists s b,
    restore this force w =
      if force
      then (this, set_minhook w b,
            Ev_MH_DisableHook (m_func this) s
              :: reported "HardHook: restore() failed: MH_DisableHook returned %s" s)
      else (this, w, []).
Proof.
  destruct force.
  - destruct (MH_DisableHook (m_func this) (minhook w)) as [s b] eqn:He.
    exists s, b. apply restore_eq, He.
  - exists MH_OK, (minhook w). reflexivity.
Qed.

Lemma EnsureMinHookInitialized_form (w : World B) :
  exists s b,
    EnsureMinHookInitialized w =
      if minhook_init_once w =? 0
      then (tt, set_minhook (set_minhook_init_once w 1) b, [Ev_MH_Initialize s])
      else (tt, w, []).
Proof.
  destruct (MH_Initialize (minhook w)) as [s b] eqn:Hi.
  exists s, b. unfold_proc. destruct (minhook_init_once w =? 0); cbn.
  - rewrite Hi. reflexivity.
  - reflexivity.
Qed.

(** A method call that has an outcome, by the method. *)
Lemma step_inv sizeof_pvoid (op : Op) (this : HardHook) (w : World B) r :
  step sizeof_pvoid op this w = Some r ->
  match op with
  | OpSetup func replacement => r = setup this func replacement w
  | OpSetupInterface unkn funcoffset replacement =>
      exists table func,
        memory w !! unkn = Some table /\
        memory w !! (table + funcoffset * sizeof_pvoid) = Some func /\
        r = (result (setup this func replacement w),
             world_of (setup this func replacement w),
             Ev_fods "HardHook: setupInterface: Replacing %p function #%ld"
                     [ArgPtr unkn; ArgLong funcoffset]
               :: events (setup this func replacement w))
  | OpInject force => r = inject this force w
  | OpRestore force => r = restore this force w
  | OpReset =>
      r = ({| m_func := NULL; m_replacement := NULL; call := NULL |}, w, [])
  | OpPrint =>
      r = (this, w,
           [Ev_fods "HardHook: unused 'print' method called for MinHook-based HardHook" []])
  | OpCheck =>
      r = (this, w,
           [Ev_fods "HardHook: unused 'check' method called for MinHook-based HardHook" []])
  end.
Proof.
  intros Hstep. destruct op; cbn [step] in Hstep;
    try (injection Hstep as <-; reflexivity).
  destruct (memory w !! unkn) as [table|] eqn:Hobj.
  - destruct (memory w !! (table + funcoffset * sizeof_pvoid)) as [f|] eqn:Hslot.
    + rewrite (setupInterface_eq sizeof_pvoid this unkn funcoffset replacement
                 w table f Hobj Hslot) in Hstep.
      injection Hstep as <-. exists table, f. auto.
    + unfold setupInterface in Hstep. cbn in Hstep.
      rewrite Hobj in Hstep. cbn in Hstep. rewrite Hslot in Hstep. discriminate.
  - unfold setupInterface in Hstep. cbn in Hstep.
    rewrite Hobj in Hstep. discriminate.
Qed.

(** The one way a method call has no outcome: [setupInterface] reading
    an address that holds no cell. *)
Lemma step_None sizeof_pvoid (op : Op) (this : HardHook) (w : World B) :
  step sizeof_pvoid op this w = None ->
  exists unkn funcoffset replacement,
    op = OpSetupInterface unkn funcoffset replacement /\
    (memory w !! unkn = None \/
     exists table, memory w !! unkn = Some table /\
                   memory w !! (table + funcoffset * sizeof_pvoid) = None).
Proof.
  intros Hstep. destruct op; cbn [step] in Hstep; try discriminate.
  exists unkn, funcoffset, replacement. split; [reflexivity|].
  destruct (memory w !! unkn) as [table|] eqn:Hobj; [|left; reflexivity].
  right. exists table. split; [reflexivity|].
  destruct (memory w !! (table + funcoffset * sizeof_pvoid)) as [f|] eqn:Hslot;
    [|reflexivity].
  rewrite (setupInterface_eq sizeof_pvoid this unkn funcoffset replacement
             w table f Hobj Hslot) in Hstep. discriminate.
Qed.

End Forms.

(** ** The library calls of a run *)

Ltac step_cases H :=
  apply step_inv in H;
  match type of H with
  | match ?op with _ => _ end => destruct op
  end;
  [ | destruct H as (?table & ?fn & ?Hobj & ?Hslot & H) | .. ];
  subst.

Ltac setup_cases this func replacement w :=
  let Heq := fresh "Heq" in
  destruct (setup_form this func replacement w)
    as (?s1 & ?original & ?b1 & ?s2 & ?b2 & ?Hc & ?He & Heq);
  rewrite ?Heq in *; clear Heq.

Section Runs.
Context {B : Type} {MH : MinHook B}.

Lemma lib_calls_cons (e : Event) (c : LibCall) (es : list Event) :
  lib_call e = Some c -> lib_calls (e :: es) = c :: lib_calls es.
Proof. intros H. unfold lib_calls. cbn. rewrite H. reflexivity. Qed.

Lemma inject_lib_calls (this : HardHook) (force : bool) (w : World B) :
  lib_calls (events (inject this force w)) =
    if force then [EnableHook (m_func this)] else [].
Proof.
  destruct (inject_form this force w) as (s & b & ->). destruct force; [|reflexivity].
  unfold events. cbn [snd].
  rewrite (lib_calls_cons _ (EnableHook (m_func this))) by reflexivity.
  rewrite lib_calls_reported. reflexivity.
Qed.

Lemma restore_lib_calls (this : HardHook) (force : bool) (w : World B) :
  lib_calls (events (restore this force w)) =
    if force then [DisableHook (m_func this)] else [].
Proof.
  destruct (restore_form this force w) as (s & b & ->). destruct force; [|reflexivity].
  unfold events. cbn [snd].
  rewrite (lib_calls_cons _ (DisableHook (m_func this))) by reflexivity.
  rewrite lib_calls_reported. reflexivity.
Qed.

(** What a method leaves alone: the data memory and the flag; and what it
    does to the stored target. *)
Lemma step_frame sizeof_pvoid (op : Op) (this : HardHook) (w : World B) r :
  step sizeof_pvoid op this w = Some r ->
  memory (world_of r) = memory w /\
  minhook_init_once (world_of r) = minhook_init_once w /\
  m_func (result r) = next_target op (m_func this).
Proof.
  intros Hstep. step_cases Hstep.
  - setup_cases this func replacement w. repeat split.
  - setup_cases this fn replacement w. repeat split.
  - destruct (inject_form this force w) as (s & b & ->). destruct force; repeat split.
  - destruct (restore_form this force w) as (s & b & ->). destruct force; repeat split.
  - repeat split.
  - repeat split.
  - repeat split.
Qed.

Lemma step_lib_calls sizeof_pvoid (op : Op) (this : HardHook) (w : World B) :
  (fun r => lib_calls (events r)) <$> step sizeof_pvoid op this w =
    calls_of_step sizeof_pvoid (memory w) op (m_func this).
Proof.
  destruct (step sizeof_pvoid op this w) as [r|] eqn:Hstep.
  - cbn. step_cases Hstep; cbn [calls_of_step].
    + rewrite setup_lib_calls. reflexivity.
    + rewrite Hobj. cbn [mbind option_bind]. rewrite Hslot.
      cbn [mbind option_bind]. f_equal. unfold events at 1. cbn [snd].
      rewrite lib_calls_fods, setup_lib_calls. reflexivity.
    + rewrite inject_lib_calls. reflexivity.
    + rewrite restore_lib_calls. reflexivity.
    + reflexivity.
    + reflexivity.
    + reflexivity.
  - cbn. destruct (step_None _ _ _ _ Hstep)
      as (unkn & funcoffset & replacement & -> & [Hobj | (table & Hobj & Hslot)]);
      cbn [calls_of_step]; rewrite Hobj; cbn; [reflexivity|].
    rewrite Hslot. reflexivity.
Qed.

Lemma run_lib_calls sizeof_pvoid (ops : list Op) (this : HardHook) (w : World B) :
  (fun r => lib_calls (events r)) <$> run sizeof_pvoid ops this w =
    calls_of sizeof_pvoid (memory w) ops (m_func this).
Proof.
  revert this w. induction ops as [|op ops IH]; intros this w; [reflexivity|].
  cbn [run calls_of]. rewrite <- step_lib_calls.
  destruct (step sizeof_pvoid op this w) as [[[this1 w1] e1]|] eqn:Hstep;
    [|reflexivity].
  destruct (step_frame _ _ _ _ _ Hstep) as (Hmem & _ & Htarget).
  unfold world_of, result in Hmem, Htarget. cbn [fst snd] in Hmem, Htarget.
  cbn. rewrite <- Htarget, <- Hmem, <- IH.
  destruct (run sizeof_pvoid ops this1 w1) as [[[this2 w2] e2]|]; [|reflexivity].
  cbn. unfold events. cbn [snd]. rewrite lib_calls_app. reflexivity.
Qed.

Lemma run_frame sizeof_pvoid (ops : list Op) (this : HardHook) (w : World B) r :
  run sizeof_pvoid ops this w = Some r ->
  memory (world_of r) = memory w /\
  minhook_init_once (world_of r) = minhook_init_once w /\
  (m_func (result r) = m_func this \/ m_func (result r) = NULL).
Proof.
  revert this w r. induction ops as [|op ops IH]; intros this w r Hrun.
  - injection Hrun as <-. auto.
  - cbn [run] in Hrun.
    destruct (step sizeof_pvoid op this w) as [[[this1 w1] e1]|] eqn:Hstep;
      [|discriminate].
    destruct (step_frame _ _ _ _ _ Hstep) as (Hmem & Hflag & Htarget).
    unfold world_of, result in Hmem, Hflag, Htarget.
    cbn [fst snd] in Hmem, Hflag, Htarget. cbn in Hrun.
    destruct (run sizeof_pvoid ops this1 w1) as [[[this2 w2] e2]|] eqn:Hrest;
      [|discriminate].
    injection Hrun as <-. destruct (IH _ _ _ Hrest) as (Hmem2 & Hflag2 & Ht2).
    unfold world_of, result in *. cbn [fst snd] in *.
    rewrite Hmem2, Hflag2, Hmem, Hflag. split; [reflexivity|].
    split; [reflexivity|].
    rewrite Htarget in Ht2. destruct op; cbn [next_target] in Ht2; tauto.
Qed.

End Runs.

Lemma calls_of_toggled sizeof_pvoid (m : gmap Z Z) (ops : list Op)
    (target : voidFunc) (cs : list LibCall) :
  calls_of sizeof_pvoid m ops target = Some cs ->
  forall t, t ∈ toggled cs -> t = target \/ t = NULL.
Proof.
  revert target cs. induction ops as [|op ops IH]; intros target cs Hcs t Ht.
  - injection Hcs as <-. cbn in Ht. apply elem_of_nil in Ht. destruct Ht.
  - cbn [calls_of] in Hcs.
    destruct (calls_of_step sizeof_pvoid m op target) as [c1|] eqn:H1;
      [|discriminate].
    cbn in Hcs.
    destruct (calls_of sizeof_pvoid m ops (next_target op target)) as [c2|] eqn:H2;
      [|discriminate].
    injection Hcs as <-. unfold toggled in Ht. rewrite omap_app in Ht.
    apply elem_of_app in Ht. destruct Ht as [Ht | Ht].
    + left. destruct op; cbn [calls_of_step] in H1.
      * injection H1 as <-. cbn in Ht. apply list_elem_of_singleton in Ht. exact Ht.
      * destruct (m !! unkn) as [table|]; [|discriminate]. cbn in H1.
        destruct (m !! (table + funcoffset * sizeof_pvoid)); [|discriminate].
        injection H1 as <-. cbn in Ht. apply list_elem_of_singleton in Ht. exact Ht.
      * injection H1 as <-. destruct force; cbn in Ht;
          [apply list_elem_of_singleton in Ht; exact Ht | apply elem_of_nil in Ht; destruct Ht].
      * injection H1 as <-. destruct force; cbn in Ht;
          [apply list_elem_of_singleton in Ht; exact Ht | apply elem_of_nil in Ht; destruct Ht].
      * injection H1 as <-. apply elem_of_nil in Ht. destruct Ht.
      * injection H1 as <-. apply elem_of_nil in Ht. destruct Ht.
      * injection H1 as <-. apply elem_of_nil in Ht. destruct Ht.
    + destruct (IH _ _ H2 t Ht) as [-> | ->]; [|right; reflexivity].
      destruct op; cbn [next_target]; auto.
Qed.

(** ** What decides the library calls, and what does not *)

(** X1: the calls a run of methods makes into the library are decided by
    the methods, their arguments, the stored [m_func] and the memory
    [setupInterface] reads: two runs of the same methods against two
    libraries, whatever either answers, make the same calls in the same
    order (and have an outcome together). *)
Theorem run_calls_ignore_answers {B1 : Type} {MH1 : MinHook B1}
    {B2 : Type} {MH2 : MinHook B2} sizeof_pvoid (ops : list Op)
    (this1 this2 : HardHook) (w1 : World B1) (w2 : World B2) :
  m_func this1 = m_func this2 ->
  memory w1 = memory w2 ->
  (fun r => lib_calls (events r)) <$> run sizeof_pvoid ops this1 w1 =
  (fun r => lib_calls (events r)) <$> run sizeof_pvoid ops this2 w2.
Proof.
  intros Htarget Hmem. rewrite !run_lib_calls, Htarget, Hmem. reflexivity.
Qed.

Section Targets.
Context {B : Type} {MH : MinHook B}.

(** X2: whatever methods are called on a hook and whatever addresses
    [setup] and [setupInterface] are given, every [MH_EnableHook] and
    [MH_DisableHook] the hook makes is on the [m_func] it started with or
    on null, and [m_func] ends as one of the two.  On a hook whose
    [m_func] is null (made by [HardHook()], or after [reset]) they are all
    on null and [m_func] stays null. *)
Theorem run_toggles_stored_target_or_null sizeof_pvoid (ops : list Op)
    (this : HardHook) (w : World B) r :
  run sizeof_pvoid ops this w = Some r ->
  (forall t, t ∈ toggled (lib_calls (events r)) -> t = m_func this \/ t = NULL) /\
  (m_func (result r) = m_func this \/ m_func (result r) = NULL) /\
  (m_func this = NULL ->
   m_func (result r) = NULL /\
   forall t, t ∈ toggled (lib_calls (events r)) -> t = NULL).
Proof.
  intros Hrun.
  pose proof (run_lib_calls sizeof_pvoid ops this w) as Hcalls.
  rewrite Hrun in Hcalls. cbn in Hcalls. symmetry in Hcalls.
  pose proof (calls_of_toggled _ _ _ _ _ Hcalls) as Htog.
  destruct (run_frame _ _ _ _ _ Hrun) as (_ & _ & Hend).
  split; [exact Htog|]. split; [exact Hend|].
  intros Hnull. split.
  - destruct Hend as [-> | ->]; [exact Hnull | reflexivity].
  - intros t Ht. destruct (Htog t Ht) as [-> | ->]; [exact Hnull | reflexivity].
Qed.

Lemma step_replacement_unread sizeof_pvoid (op : Op) (this1 this2 : HardHook)
    (w : World B) r1 :
  m_func this1 = m_func this2 ->
  call this1 = call this2 ->
  step sizeof_pvoid op this1 w = Some r1 ->
  exists r2,
    step sizeof_pvoid op this2 w = Some r2 /\
    world_of r1 = world_of r2 /\ events r1 = events r2 /\
    m_func (result r1) = m_func (result r2) /\
    call (result r1) = call (result r2).
Proof.
  intros Htarget Hcall Hstep.
  assert (Hsetup : forall func replacement,
    world_of (setup this1 func replacement w) =
      world_of (setup this2 func replacement w) /\
    events (setup this1 func replacement w) =
      events (setup this2 func replacement w) /\
    m_func (result (setup this1 func replacement w)) =
      m_func (result (setup this2 func replacement w)) /\
    call (result (setup this1 func replacement w)) =
      call (result (setup this2 func replacement w))).
  { intros func replacement.
    destruct (setup_form this1 func replacement w)
      as (s1 & original & b1 & s2 & b2 & Hc & He & ->).
    rewrite Hcall in Hc. rewrite Htarget in He.
    rewrite (setup_eq this2 func replacement w _ _ _ _ _ Hc He).
    unfold world_of, events, result. cbn [fst snd set_call m_func call].
    rewrite Htarget. auto. }
  step_cases Hstep.
  - eexists. split; [reflexivity|]. apply Hsetup.
  - eexists. split; [apply (setupInterface_eq _ _ _ _ _ _ _ _ Hobj Hslot)|].
    destruct (Hsetup fn replacement) as (Hw & He & Hm & Hc).
    unfold world_of, events, result in *. cbn [fst snd] in *.
    rewrite Hw, He, Hm, Hc. auto.
  - eexists. split; [reflexivity|]. destruct force.
    + destruct (MH_EnableHook (m_func this1) (minhook w)) as [s b] eqn:He.
      rewrite (inject_eq this1 w s b He). rewrite Htarget in He.
      rewrite (inject_eq this2 w s b He).
      unfold world_of, events, result. cbn [fst snd]. rewrite Htarget. auto.
    + rewrite !inject_unforced. auto.
  - eexists. split; [reflexivity|]. destruct force.
    + destruct (MH_DisableHook (m_func this1) (minhook w)) as [s b] eqn:He.
      rewrite (restore_eq this1 w s b He). rewrite Htarget in He.
      rewrite (restore_eq this2 w s b He).
      unfold world_of, events, result. cbn [fst snd]. rewrite Htarget. auto.
    + rewrite !restore_unforced. auto.
  - eexists. split; [reflexivity|]. auto.
  - eexists. split; [reflexivity|]. auto.
  - eexists. split; [reflexivity|]. auto.
Qed.

(** X3: [m_replacement] is never read.  Two hooks that differ in it alone
    go through any run of methods with the same events and the same
    process state, and end with the same [m_func] and [call]. *)
Theorem run_never_reads_replacement sizeof_pvoid (ops : list Op)
    (this1 this2 : HardHook) (w : World B) r1 :
  m_func this1 = m_func this2 ->
  call this1 = call this2 ->
  run sizeof_pvoid ops this1 w = Some r1 ->
  exists r2,
    run sizeof_pvoid ops this2 w = Some r2 /\
    world_of r1 = world_of r2 /\ events r1 = events r2 /\
    m_func (result r1) = m_func (result r2) /\
    call (result r1) = call (result r2).
Proof.
  revert this1 this2 w r1.
  induction ops as [|op ops IH]; intros this1 this2 w r1 Htarget Hcall Hrun.
  - injection Hrun as <-. eexists. split; [reflexivity|]. auto.
  - cbn [run] in *.
    destruct (step sizeof_pvoid op this1 w) as [[[h1 w1] e1]|] eqn:Hstep;
      [|discriminate].
    destruct (step_replacement_unread _ _ _ this2 _ _ Htarget Hcall Hstep)
      as ([[h2 w2] e2] & -> & Hw & He & Hm & Hc).
    unfold world_of, events, result in Hw, He, Hm, Hc.
    cbn [fst snd] in Hw, He, Hm, Hc. subst w2 e2. cbn in *.
    destruct (run sizeof_pvoid ops h1 w1) as [[[h1' w1'] e1']|] eqn:Hrest;
      [|discriminate].
    injection Hrun as <-.
    destruct (IH h1 h2 w1 _ Hm Hc Hrest) as ([[h2' w2'] e2'] & -> & Hw & He & Hm' & Hc').
    unfold world_of, events, result in *. cbn [fst snd] in *. subst.
    eexists. split; [reflexivity|]. cbn. auto.
Qed.

End Targets.

(** ** Constructors *)

Section Constructors.
Context {B : Type} {MH : MinHook B}.

Lemma HardHook_ctor_form (w : World B) :
  exists s b,
    HardHook_ctor w =
      if minhook_init_once w =? 0
      then ({| m_func := NULL; m_replacement := NULL; call := NULL |},
            set_minhook (set_minhook_init_once w 1) b, [Ev_MH_Initialize s])
      else ({| m_func := NULL; m_replacement := NULL; call := NULL |}, w, []).
Proof.
  destruct (EnsureMinHookInitialized_form w) as (s & b & Heq).
  exists s, b. unfold HardHook_ctor, bind, ret. rewrite Heq.
  destruct (minhook_init_once w =? 0); reflexivity.
Qed.

Lemma HardHook_ctor_func_form storage func replacement (w : World B) :
  exists s b,
    let this :=
      {| m_func := func; m_replacement := replacement; call := storage |} in
    HardHook_ctor_func storage func replacement w =
      if minhook_init_once w =? 0
      then
        let w1 := set_minhook (set_minhook_init_once w 1) b in
        (result (setup this func replacement w1),
         world_of (setup this func replacement w1),
         Ev_MH_Initialize s :: events (setup this func replacement w1))
      else setup this func replacement w.
Proof.
  destruct (EnsureMinHookInitialized_form w) as (s & b & Heq).
  exists s, b. cbv zeta. unfold HardHook_ctor_func, bind. rewrite Heq.
  destruct (minhook_init_once w =? 0).
  - destruct (setup _ func replacement _) as [[this2 w2] e2]. reflexivity.
  - destruct (setup _ func replacement w) as [[this2 w2] e2]. reflexivity.
Qed.


End Constructors.

(** ** Failures and their reports, over a whole program *)

Lemma well_reported_after_ext (p1 p2 : option Event) (es : list Event) :
  expects p1 = expects p2 ->
  well_reported_after p1 es = well_reported_after p2 es.
Proof. intros H. destruct es; cbn; rewrite H; reflexivity. Qed.

Lemma well_reported_app (prev : option Event) (es1 es2 : list Event) :
  well_reported_after prev es1 = true ->
  well_reported es2 = true ->
  well_reported_after prev (es1 ++ es2) = true.
Proof.
  revert prev. induction es1 as [|e es1 IH]; intros prev H1 H2.
  - cbn in *. destruct (expects prev) eqn:Hp; [discriminate|].
    rewrite (well_reported_after_ext prev None) by exact Hp. exact H2.
  - cbn in *. apply andb_true_iff in H1 as [Hhead Htail].
    rewrite Hhead. cbn. apply IH; assumption.
Qed.

Lemma well_reported_unreported (e : Event) (es : list Event) :
  call_status e = None -> is_report e = false ->
  well_reported (e :: es) = well_reported es.
Proof.
  intros Hs Hr. unfold well_reported. cbn. rewrite Hr. cbn.
  apply well_reported_after_ext. cbn. rewrite Hs. reflexivity.
Qed.

Section Reports.
Context {B : Type} {MH : MinHook B}.

Lemma setup_well_reported (this : HardHook) func replacement (w : World B) :
  well_reported (events (setup this func replacement w)) = true.
Proof.
  setup_cases this func replacement w. unfold events. cbn [snd].
  destruct s1, s2; reflexivity.
Qed.

Lemma step_well_reported sizeof_pvoid (op : Op) (this : HardHook) (w : World B) r :
  step sizeof_pvoid op this w = Some r -> well_reported (events r) = true.
Proof.
  intros Hstep. step_cases Hstep.
  - apply setup_well_reported.
  - unfold events at 1. cbn [snd].
    rewrite well_reported_unreported by reflexivity. apply setup_well_reported.
  - destruct (inject_form this force w) as (s & b & ->).
    destruct force; [destruct s|]; reflexivity.
  - destruct (restore_form this force w) as (s & b & ->).
    destruct force; [destruct s|]; reflexivity.
  - reflexivity.
  - reflexivity.
  - reflexivity.
Qed.

Lemma construct_well_reported (c : Ctor) (w : World B) :
  well_reported (events (construct c w)) = true.
Proof.
  destruct c as [|storage func replacement]; cbn [construct].
  - destruct (HardHook_ctor_form w) as (s & b & ->).
    destruct (minhook_init_once w =? 0); reflexivity.
  - destruct (HardHook_ctor_func_form storage func replacement w) as (s & b & Heq).
    cbv zeta in Heq. rewrite Heq. destruct (minhook_init_once w =? 0).
    + unfold events at 1. cbn [snd].
      rewrite well_reported_unreported by reflexivity. apply setup_well_reported.
    + apply setup_well_reported.
Qed.

(** X5: in the trace of any program over any number of hooks, every call
    of [MH_CreateHook], [MH_EnableHook] or [MH_DisableHook] that returned
    a status other than [MH_OK] is followed at once by a diagnostic with
    the name of that status, a call that returned [MH_OK] is not, and no
    such diagnostic occurs anywhere else; the status of [MH_Initialize]
    is never reported. *)
Theorem exec_reports_each_failure_once sizeof_pvoid (prog : list Stmt)
    (objs : list HardHook) (w : World B) r :
  exec sizeof_pvoid prog objs w = Some r ->
  well_reported (events r) = true.
Proof.
  revert objs w r. induction prog as [|st prog IH]; intros objs w r Hexec.
  - injection Hexec as <-. reflexivity.
  - destruct st as [c | i op]; cbn [exec] in Hexec.
    + pose proof (construct_well_reported c w) as Hc.
      destruct (construct c w) as [[this w1] e1].
      destruct (exec sizeof_pvoid prog (objs ++ [this]) w1)
        as [[[objs2 w2] e2]|] eqn:Hrest; [|discriminate].
      cbn in Hexec. injection Hexec as <-.
      apply well_reported_app; [exact Hc|]. apply (IH _ _ _ Hrest).
    + destruct (objs !! i) as [this|]; [|discriminate]. cbn in Hexec.
      destruct (step sizeof_pvoid op this w) as [[[this1 w1] e1]|] eqn:Hstep;
        [|discriminate].
      cbn in Hexec.
      destruct (exec sizeof_pvoid prog (<[i:=this1]> objs) w1)
        as [[[objs2 w2] e2]|] eqn:Hrest; [|discriminate].
      cbn in Hexec. injection Hexec as <-.
      apply well_reported_app; [|apply (IH _ _ _ Hrest)].
      apply (step_well_reported _ _ _ _ _ Hstep).
Qed.

End Reports.

Example well_reported_rejects_a_silent_failure :
  well_reported [Ev_MH_EnableHook 4096 MH_ERROR_ENABLED] = false /\
  well_reported [Ev_MH_EnableHook 4096 MH_OK;
                 Ev_fods "HardHook: inject() failed: MH_EnableHook returned %s"
                         [ArgStr "MH_OK"]] = false /\
  well_reported [Ev_MH_EnableHook 4096 MH_ERROR_ENABLED;
                 Ev_fods "HardHook: inject() failed: MH_EnableHook returned %s"
                         [ArgStr "MH_ERROR_DISABLED"]] = false.
Proof. repeat split. Qed.

(** ** One initialization, over a whole program *)

Section ProgramBootstrap.
Context {B : Type} {MH : MinHook B}.

Lemma setup_memory (this : HardHook) func replacement (w : World B) :
  memory (world_of (setup this func replacement w)) = memory w.
Proof.
  exact (proj1 (step_frame 0 (OpSetup func replacement) this w _ eq_refl)).
Qed.

Lemma construct_memory (c : Ctor) (w : World B) :
  memory (world_of (construct c w)) = memory w.
Proof.
  destruct c as [|storage func replacement]; cbn [construct].
  - destruct (HardHook_ctor_form w) as (s & b & ->).
    destruct (minhook_init_once w =? 0); reflexivity.
  - destruct (HardHook_ctor_func_form storage func replacement w) as (s & b & Heq).
    cbv zeta in Heq. rewrite Heq. destruct (minhook_init_once w =? 0).
    + unfold world_of at 1. cbn [fst snd]. rewrite setup_memory. reflexivity.
    + apply setup_memory.
Qed.

Lemma exec_memory sizeof_pvoid (prog : list Stmt) (objs : list HardHook)
    (w : World B) r :
  exec sizeof_pvoid prog objs w = Some r -> memory (world_of r) = memory w.
Proof.
  revert objs w r. induction prog as [|st prog IH]; intros objs w r Hexec.
  - injection Hexec as <-. reflexivity.
  - destruct st as [c | i op]; cbn [exec] in Hexec.
    + pose proof (construct_memory c w) as Hc.
      destruct (construct c w) as [[this w1] e1].
      destruct (exec sizeof_pvoid prog (objs ++ [this]) w1)
        as [[[objs2 w2] e2]|] eqn:Hrest; [|discriminate].
      cbn in Hexec. injection Hexec as <-.
      rewrite <- Hc. apply (IH _ _ _ Hrest).
    + destruct (objs !! i) as [this|]; [|discriminate]. cbn in Hexec.
      destruct (step sizeof_pvoid op this w) as [[[this1 w1] e1]|] eqn:Hstep;
        [|discriminate].
      cbn in Hexec.
      destruct (exec sizeof_pvoid prog (<[i:=this1]> objs) w1)
        as [[[objs2 w2] e2]|] eqn:Hrest; [|discriminate].
      cbn in Hexec. injection Hexec as <-.
      destruct (step_frame _ _ _ _ _ Hstep) as (Hm & _).
      rewrite <- Hm. apply (IH _ _ _ Hrest).
Qed.

Lemma exec_later sizeof_pvoid (prog : list Stmt) (objs : list HardHook)
    (w : World B) r :
  minhook_init_once w <> 0 ->
  exec sizeof_pvoid prog objs w = Some r ->
  count_MH_Initialize (events r) = 0%nat /\
  minhook_init_once (world_of r) = minhook_init_once w.
Proof.
  revert objs w r. induction prog as [|st prog IH]; intros objs w r Hflag Hexec.
  - injection Hexec as <-. split; reflexivity.
  - destruct st as [c | i op]; cbn [exec] in Hexec.
    + destruct (construct_later c w Hflag) as [Hn Hf].
      destruct (construct c w) as [[this w1] e1].
      unfold events, world_of in Hn, Hf. cbn [fst snd] in Hn, Hf.
      destruct (exec sizeof_pvoid prog (objs ++ [this]) w1)
        as [[[objs2 w2] e2]|] eqn:Hrest; [|discriminate].
      cbn in Hexec. injection Hexec as <-.
      assert (H1 : minhook_init_once w1 <> 0) by (rewrite Hf; exact Hflag).
      destruct (IH _ _ _ H1 Hrest) as [Hn2 Hf2].
      unfold events, world_of in *. cbn [fst snd] in *.
      rewrite count_MH_Initialize_app, Hn, Hn2, Hf2, Hf. split; reflexivity.
    + destruct (objs !! i) as [this|]; [|discriminate]. cbn in Hexec.
      destruct (step sizeof_pvoid op this w) as [[[this1 w1] e1]|] eqn:Hstep;
        [|discriminate].
      cbn in Hexec.
      destruct (exec sizeof_pvoid prog (<[i:=this1]> objs) w1)
        as [[[objs2 w2] e2]|] eqn:Hrest; [|discriminate].
      cbn in Hexec. injection Hexec as <-.
      destruct (step_no_initialize _ _ _ _ _ Hstep) as [Hn Hf].
      unfold events, world_of in Hn, Hf. cbn [fst snd] in Hn, Hf.
      assert (H1 : minhook_init_once w1 <> 0) by (rewrite Hf; exact Hflag).
      destruct (IH _ _ _ H1 Hrest) as [Hn2 Hf2].
      unfold events, world_of in *. cbn [fst snd] in *.
      rewrite count_MH_Initialize_app, Hn, Hn2, Hf2, Hf. split; reflexivity.
Qed.

Lemma construct_first_call (c : Ctor) (w : World B) :
  minhook_init_once w = 0 ->
  exists rest, lib_calls (events (construct c w)) = Initialize :: rest.
Proof.
  intros H0. apply Z.eqb_eq in H0.
  destruct c as [|storage func replacement]; cbn [construct].
  - destruct (HardHook_ctor_form w) as (s & b & ->). rewrite H0.
    exists []. reflexivity.
  - destruct (HardHook_ctor_func_form storage func replacement w) as (s & b & Heq).
    cbv zeta in Heq. rewrite Heq, H0. unfold events at 1. cbn [snd].
    eexists. apply lib_calls_cons. reflexivity.
Qed.

(** X6: a program that starts in a fresh process and does anything at
    all, with any number of hooks and any methods called on them between
    and after the constructions, begins with a construction; its first
    library call is [MH_Initialize], it has entered [MH_Initialize]
    exactly once when it ends, the flag is 1 and no data memory has been
    written. *)
Theorem exec_initializes_once sizeof_pvoid (prog : list Stmt) (b : B)
    (m : gmap Z Z) r :
  prog <> [] ->
  exec sizeof_pvoid prog [] (startup b m) = Some r ->
  (exists c rest, prog = Construct c :: rest) /\
  (exists calls, lib_calls (events r) = Initialize :: calls) /\
  count_MH_Initialize (events r) = 1%nat /\
  minhook_init_once (world_of r) = 1 /\
  memory (world_of r) = m.
Proof.
  intros Hne Hexec.
  pose proof (exec_memory _ _ _ _ _ Hexec) as Hmem.
  destruct prog as [|[c | i op] prog]; [congruence| |discriminate Hexec].
  split; [eauto|]. cbn [exec] in Hexec.
  destruct (construct_first c (startup b m) eq_refl) as [Hn Hf].
  destruct (construct_first_call c (startup b m) eq_refl) as [calls1 Hcalls].
  destruct (construct c (startup b m)) as [[this w1] e1].
  unfold events, world_of in Hn, Hf, Hcalls. cbn [fst snd] in Hn, Hf, Hcalls.
  destruct (exec sizeof_pvoid prog ([] ++ [this]) w1)
    as [[[objs2 w2] e2]|] eqn:Hrest; [|discriminate].
  cbn in Hexec. injection Hexec as <-.
  assert (H1 : minhook_init_once w1 <> 0) by (rewrite Hf; discriminate).
  destruct (exec_later _ _ _ _ _ H1 Hrest) as [Hn2 Hf2].
  unfold events, world_of in *. cbn [fst snd] in *.
  split; [|split; [|split]].
  - exists (calls1 ++ lib_calls e2). rewrite lib_calls_app, Hcalls. reflexivity.
  - rewrite count_MH_Initialize_app, Hn, Hn2. reflexivity.
  - rewrite Hf2. exact Hf.
  - exact Hmem.
Qed.

End ProgramBootstrap.

(** ** The trampoline when the creation fails *)

Section TrampolineOnFailure.
Context {B : Type} {MH : MinHook B}.

(** X7: with a library that stores a trampoline only when
    [MH_CreateHook] answers [MH_OK], a [setup] whose creation fails leaves
    [call] as it was, so a trampoline from an earlier [setup] survives,
    and a [setup] whose creation succeeds leaves it non-null, both
    whatever [MH_EnableHook] answers; a two-argument constructor whose
    creation fails leaves in [call] what its storage happened to hold. *)
Theorem failed_create_keeps_call (this : HardHook)
    (storage func replacement : voidFunc) (w : World B) :
  stores_trampoline_iff_ok MH ->
  let r := setup this func replacement w in
  let made := HardHook_ctor_func storage func replacement w in
  (create_ok (events r) = true -> call (result r) <> NULL) /\
  (create_ok (events r) = false -> call (result r) = call this) /\
  (create_ok (events made) = false -> call (result made) = storage).
Proof.
  intros Hk. cbv zeta.
  assert (Hsetup : forall (h : HardHook) (w0 : World B),
    (create_ok (events (setup h func replacement w0)) = true ->
     call (result (setup h func replacement w0)) <> NULL) /\
    (create_ok (events (setup h func replacement w0)) = false ->
     call (result (setup h func replacement w0)) = call h)).
  { intros h w0.
    destruct (MH_CreateHook func replacement (call h) (minhook w0))
      as [[s1 original] b1] eqn:Hc.
    destruct (setup_create_ok h func replacement w0 _ _ _ Hc) as [-> ->].
    pose proof (Hk func replacement (call h) (minhook w0)) as Hs.
    rewrite Hc in Hs. destruct (bool_decide (s1 = MH_OK)).
    - split; [intros _; exact Hs | discriminate].
    - split; [discriminate | intros _; exact Hs]. }
  split; [apply Hsetup|]. split; [apply Hsetup|].
  destruct (HardHook_ctor_func_form storage func replacement w) as (s & b & Heq).
  cbv zeta in Heq. rewrite Heq. destruct (minhook_init_once w =? 0).
  - unfold events at 1, result at 1. cbn [fst snd].
    change (create_ok (Ev_MH_Initialize s :: ?es)) with (create_ok es).
    apply (Hsetup {| m_func := func; m_replacement := replacement; call := storage |}).
  - apply (Hsetup {| m_func := func; m_replacement := replacement; call := storage |}).
Qed.

(** X8: [print], [check], [reset] and the unforced [inject] and
    [restore], in any number and order, always have an outcome, make no
    library call and leave the process, the state of the library
    included, as it was; all they emit is one diagnostic for each [print]
    and [check]. *)
Theorem quiet_methods_leave_library_alone sizeof_pvoid (ops : list Op)
    (this : HardHook) (w : World B) :
  forallb quiet ops = true ->
  exists r,
    run sizeof_pvoid ops this w = Some r /\
    world_of r = w /\
    lib_calls (events r) = [] /\
    diagnostics (events r) = events r /\
    length (events r) =
      length (List.filter (fun op => match op with
                                     | OpPrint | OpCheck => true
                                     | _ => false
                                     end) ops).
Proof.
  revert this. induction ops as [|op ops IH]; intros this Hq.
  - eexists. split; [reflexivity|]. repeat split.
  - cbn [forallb] in Hq. apply andb_true_iff in Hq as [Hop Hops].
    assert (Hstep : exists this1 e1,
      step sizeof_pvoid op this w = Some (this1, w, e1) /\
      lib_calls e1 = [] /\ diagnostics e1 = e1 /\
      length e1 = length (List.filter (fun op => match op with
                                                 | OpPrint | OpCheck => true
                                                 | _ => false
                                                 end) [op])).
    { destruct op as [| |[|]|[|]| | |]; try discriminate Hop;
        eexists _, _; (split; [reflexivity|]); repeat split. }
    destruct Hstep as (this1 & e1 & Hstep & Hc1 & Hd1 & Hl1).
    destruct (IH this1 Hops) as ([[this2 w2] e2] & Hrun & Hw & Hc2 & Hd2 & Hl2).
    unfold world_of, events in Hw, Hc2, Hd2, Hl2. cbn [fst snd] in Hw, Hc2, Hd2, Hl2.
    subst w2. eexists. cbn [run]. rewrite Hstep. cbn. rewrite Hrun. cbn.
    split; [reflexivity|]. unfold world_of, events. cbn [fst snd].
    split; [reflexivity|].
    rewrite lib_calls_app, diagnostics_app, length_app, Hc1, Hc2, Hd1, Hd2, Hl1, Hl2.
    split; [reflexivity|]. split; [reflexivity|].
    destruct op as [| |[|]|[|]| | |]; try discriminate Hop; reflexivity.
Qed.

End TrampolineOnFailure.

(** ** The names of the statuses *)

(** X9: [minhook_status_string] gives each of the twelve enumerators the
    switch lists a name of its own, and none of these names is the text
    ["(unknown)"] of the fall-through: a reported name identifies the
    listed status it came from. *)
Theorem minhook_status_string_identifies_listed (s s' : MH_STATUS) :
  is_listed s = true ->
  is_listed s' = true ->
  minhook_status_string s <> "(unknown)"%string /\
  (minhook_status_string s = minhook_status_string s' -> s = s') /\
  minhook_status_string MH_STATUS_unlisted = "(unknown)"%string.
Proof.
  intros Hs Hs'. split; [destruct s; (discriminate Hs || discriminate)|].
  split; [|reflexivity].
  destruct s; try discriminate Hs; destruct s'; try discriminate Hs';
    intros H; first [reflexivity | discriminate H].
Qed.

(** ** Losing the race *)

(** X11: the guard does not make a thread that loses the interlocked step
    wait for the winner.  With two or more threads there is a schedule
    after which a loser has left the guard, and its constructor goes on,
    while the winner has not yet entered [MH_Initialize]: no event has
    been emitted and the library is in the state it started in. *)
Theorem loser_leaves_before_initialization {B : Type} {MH : MinHook B}
    (b : B) (m : gmap Z Z) (others : nat) :
  exists schedule,
    let r := interleave schedule (replicate (S (S others)) AtCompareExchange)
                        (startup b m) in
    result r !! 0%nat = Some AtInitialize /\
    result r !! 1%nat = Some Returned /\
    count_MH_Initialize (events r) = 0%nat /\
    minhook (world_of r) = b.
Proof. exists [0; 1]%nat. repeat split. Qed.

(** ** The further properties at sample inputs *)

Lemma run_calls_ignore_answers_witness :
  let ops := [OpSetup 4352 8192; OpInject true; OpSetupInterface 20480 2 8192] in
  m_func sample_hook = m_func sample_hook /\
  memory (sample_world [MH_ERROR_NOT_EXECUTABLE; MH_ERROR_NOT_CREATED]) =
    memory (sample_world []) /\
  (fun r => lib_calls (events r))
    <$> run 8 ops sample_hook
            (sample_world [MH_ERROR_NOT_EXECUTABLE; MH_ERROR_NOT_CREATED]) =
  (fun r => lib_calls (events r)) <$> run 8 ops sample_hook (sample_world []).
Proof.
  cbv zeta. split; [reflexivity|]. split; [reflexivity|].
  exact (run_calls_ignore_answers 8
           [OpSetup 4352 8192; OpInject true; OpSetupInterface 20480 2 8192]
           sample_hook sample_hook
           (sample_world [MH_ERROR_NOT_EXECUTABLE; MH_ERROR_NOT_CREATED])
           (sample_world []) eq_refl eq_refl).
Defined.

Lemma run_toggles_stored_target_or_null_witness :
  let ops := [OpSetup 4352 8192; OpInject true; OpReset;
              OpSetupInterface 20480 1 8192; OpRestore true] in
  exists r,
    run 8 ops sample_hook (sample_world []) = Some r /\
    toggled (lib_calls (events r)) = [4096; 4096; NULL; NULL] /\
    (forall t, t ∈ toggled (lib_calls (events r)) ->
               t = m_func sample_hook \/ t = NULL).
Proof.
  cbv zeta. eexists. split; [vm_compute; reflexivity|]. split; [reflexivity|].
  refine (proj1 (run_toggles_stored_target_or_null 8
           [OpSetup 4352 8192; OpInject true; OpReset;
            OpSetupInterface 20480 1 8192; OpRestore true]
           sample_hook (sample_world []) _ _)).
  vm_compute. reflexivity.
Defined.

Lemma run_never_reads_replacement_witness :
  let other := {| m_func := 4096; m_replacement := 12288; call := NULL |} in
  let ops := [OpSetup 4096 8192; OpInject true; OpRestore true] in
  m_func sample_hook = m_func other /\
  call sample_hook = call other /\
  exists r1,
    run 8 ops sample_hook (sample_world []) = Some r1 /\
    exists r2,
      run 8 ops other (sample_world []) = Some r2 /\
      world_of r1 = world_of r2 /\ events r1 = events r2 /\
      m_func (result r1) = m_func (result r2) /\
      call (result r1) = call (result r2).
Proof.
  cbv zeta. split; [reflexivity|]. split; [reflexivity|].
  eexists. split; [vm_compute; reflexivity|].
  refine (run_never_reads_replacement 8
            [OpSetup 4096 8192; OpInject true; OpRestore true]
            sample_hook
            {| m_func := 4096; m_replacement := 12288; call := NULL |}
            (sample_world []) _ eq_refl eq_refl _).
  vm_compute. reflexivity.
Defined.

Lemma exec_reports_each_failure_once_witness :
  exists r,
    exec 8 [Construct New; Construct (NewFunc NULL 4096 8192);
            Method 0 (OpSetupInterface 20480 1 8192);
            Method 1 (OpInject true); Method 0 OpPrint] []
         (sample_world [MH_OK; MH_ERROR_MEMORY_ALLOC; MH_ERROR_NOT_CREATED;
                        MH_OK; MH_OK; MH_ERROR_ENABLED]) = Some r /\
    well_reported (events r) = true.
Proof.
  eexists. split; [vm_compute; reflexivity|].
  refine (exec_reports_each_failure_once 8
           [Construct New; Construct (NewFunc NULL 4096 8192);
            Method 0 (OpSetupInterface 20480 1 8192);
            Method 1 (OpInject true); Method 0 OpPrint] []
           (sample_world [MH_OK; MH_ERROR_MEMORY_ALLOC; MH_ERROR_NOT_CREATED;
                          MH_OK; MH_OK; MH_ERROR_ENABLED]) _ _).
  vm_compute. reflexivity.
Defined.

Lemma exec_initializes_once_witness :
  let prog := [Construct New; Method 0 (OpSetup 4096 8192);
               Construct (NewFunc NULL 4352 8192); Method 1 (OpRestore true)] in
  prog <> [] /\
  exists r,
    exec 8 prog [] (startup (sample_library []) sample_memory) = Some r /\
    count_MH_Initialize (events r) = 1%nat /\
    minhook_init_once (world_of r) = 1.
Proof.
  cbv zeta. split; [discriminate|].
  eexists. split; [vm_compute; reflexivity|].
  refine (let H := exec_initializes_once 8
            [Construct New; Method 0 (OpSetup 4096 8192);
             Construct (NewFunc NULL 4352 8192); Method 1 (OpRestore true)]
            (sample_library []) sample_memory _ ltac:(discriminate) _ in
          conj (proj1 (proj2 (proj2 H))) (proj1 (proj2 (proj2 (proj2 H))))).
  vm_compute. reflexivity.
Defined.

Lemma failed_create_keeps_call_witness :
  let h := {| m_func := 4096; m_replacement := 8192; call := 28000 |} in
  let w := sample_world [MH_ERROR_ALREADY_CREATED; MH_ERROR_ENABLED] in
  stores_trampoline_iff_ok Scripted_MinHook /\
  create_ok (events (setup h 4096 8192 w)) = false /\
  call (result (setup h 4096 8192 w)) = 28000.
Proof.
  cbv zeta. split; [exact Scripted_stores_trampoline_iff_ok|].
  split; [reflexivity|].
  exact (proj1 (proj2
    (failed_create_keeps_call
       {| m_func := 4096; m_replacement := 8192; call := 28000 |}
       NULL 4096 8192
       (sample_world [MH_ERROR_ALREADY_CREATED; MH_ERROR_ENABLED])
       Scripted_stores_trampoline_iff_ok)) eq_refl).
Defined.

Lemma quiet_methods_leave_library_alone_witness :
  let ops := [OpPrint; OpInject false; OpReset; OpCheck; OpRestore false] in
  forallb quiet ops = true /\
  exists r,
    run 8 ops sample_hook (sample_world [MH_ERROR_ENABLED]) = Some r /\
    world_of r = sample_world [MH_ERROR_ENABLED] /\
    lib_calls (events r) = [] /\
    diagnostics (events r) = events r /\
    length (events r) = 2%nat.
Proof.
  cbv zeta. split; [reflexivity|].
  exact (quiet_methods_leave_library_alone 8
           [OpPrint; OpInject false; OpReset; OpCheck; OpRestore false]
           sample_hook (sample_world [MH_ERROR_ENABLED]) eq_refl).
Defined.

Lemma minhook_status_string_identifies_listed_witness :
  is_listed MH_ERROR_ENABLED = true /\
  is_listed MH_ERROR_DISABLED = true /\
  minhook_status_string MH_ERROR_ENABLED <> "(unknown)"%string /\
  (minhook_status_string MH_ERROR_ENABLED = minhook_status_string MH_ERROR_DISABLED ->
   MH_ERROR_ENABLED = MH_ERROR_DISABLED).
Proof.
  split; [reflexivity|]. split; [reflexivity|].
  destruct (minhook_status_string_identifies_listed
              MH_ERROR_ENABLED MH_ERROR_DISABLED eq_refl eq_refl) as (H1 & H2 & _).
  split; [exact H1 | exact H2].
Defined.

Lemma MH_Initialize_entered_once_concurrently_witness :
  let r := interleave [0; 1; 2; 0]%nat (replicate 3 AtCompareExchange)
                      (startup (sample_library []) sample_memory) in
  (0 < 3)%nat /\
  Forall (eq Returned) (result r) /\
  count_MH_Initialize (events r) = 1%nat.
Proof.
  cbv zeta.
  assert (Hret : Forall (eq Returned)
    (result (interleave [0; 1; 2; 0]%nat (replicate 3 AtCompareExchange)
                        (startup (sample_library []) sample_memory)))).
  { repeat constructor. }
  split; [lia|]. split; [exact Hret|].
  exact (proj2 (MH_Initialize_entered_once_concurrently (sample_library [])
                  sample_memory 3 [0; 1; 2; 0]%nat) ltac:(lia) Hret).
Defined.
